(** * Sword module to OSIS conversion (scripts/convert-sword-to-osis.py)

    A shallow embedding of [read_sword_index], [convert_module_to_osis] and
    the pieces they rely on: the 12-byte index records, the decode loop over
    the sampled prefix of the index, the UTF-8 decoder with
    [errors='ignore'], the slot-to-reference guess and the OSIS writer.

    Python [str] values are modelled as lists of code points ([list Z]);
    raw file contents as [list byte]. *)

From Stdlib Require Import String Ascii ZArith NArith Arith Lia Bool List.
From Stdlib Require Import Init.Byte Sorting.Sorted.
Import ListNotations.
Open Scope list_scope.
#[local] Set Warnings "-abstract-large-number".

(** ** Python helpers *)

(** Python [s[i:j]] for [0 <= i <= j]. *)
Definition py_slice {A} (l : list A) (i j : nat) : list A :=
  firstn (j - i) (skipn i l).

(** A Python [str] built from an ASCII literal. *)
Definition str (s : string) : list Z :=
  map (fun c => Z.of_nat (nat_of_ascii c)) (list_ascii_of_string s).

(** [str(n)] for a non-negative Python int. *)
Fixpoint digits_aux (fuel n : nat) (acc : list Z) : list Z :=
  match fuel with
  | 0 => acc
  | S f =>
      let acc' := (48 + Z.of_nat (n mod 10))%Z :: acc in
      if n <? 10 then acc' else digits_aux f (n / 10) acc'
  end.

Definition py_str_nat (n : nat) : list Z := digits_aux (S n) n [].

(** ** Constants *)

Definition KJV_BOOKS : list string :=
  ["Gen"; "Exod"; "Lev"; "Num"; "Deut"; "Josh"; "Judg"; "Ruth"; "1Sam"; "2Sam";
   "1Kgs"; "2Kgs"; "1Chr"; "2Chr"; "Ezra"; "Neh"; "Esth"; "Job"; "Ps"; "Prov";
   "Eccl"; "Song"; "Isa"; "Jer"; "Lam"; "Ezek"; "Dan"; "Hos"; "Joel"; "Amos";
   "Obad"; "Jonah"; "Mic"; "Nah"; "Hab"; "Zeph"; "Hag"; "Zech"; "Mal";
   "Matt"; "Mark"; "Luke"; "John"; "Acts"; "Rom"; "1Cor"; "2Cor"; "Gal"; "Eph";
   "Phil"; "Col"; "1Thess"; "2Thess"; "1Tim"; "2Tim"; "Titus"; "Phlm"; "Heb";
   "Jas"; "1Pet"; "2Pet"; "1John"; "2John"; "3John"; "Jude"; "Rev"]%string.

(** [KJV_CHAPTERS], kept as an association list in the source's order.
    The slot mapping below never consults it. *)
Definition KJV_CHAPTERS : list (string * nat) :=
  [("Gen", 50); ("Exod", 40); ("Lev", 27); ("Num", 36); ("Deut", 34);
   ("Josh", 24); ("Judg", 21); ("Ruth", 4); ("1Sam", 31); ("2Sam", 24);
   ("1Kgs", 22); ("2Kgs", 25); ("1Chr", 29); ("2Chr", 36); ("Ezra", 10);
   ("Neh", 13); ("Esth", 10); ("Job", 42); ("Ps", 150); ("Prov", 31);
   ("Eccl", 12); ("Song", 8); ("Isa", 66); ("Jer", 52); ("Lam", 5);
   ("Ezek", 48); ("Dan", 12); ("Hos", 14); ("Joel", 3); ("Amos", 9);
   ("Obad", 1); ("Jonah", 4); ("Mic", 7); ("Nah", 3); ("Hab", 3);
   ("Zeph", 3); ("Hag", 2); ("Zech", 14); ("Mal", 4); ("Matt", 28);
   ("Mark", 16); ("Luke", 24); ("John", 21); ("Acts", 28); ("Rom", 16);
   ("1Cor", 16); ("2Cor", 13); ("Gal", 6); ("Eph", 6); ("Phil", 4);
   ("Col", 4); ("1Thess", 5); ("2Thess", 3); ("1Tim", 6); ("2Tim", 4);
   ("Titus", 3); ("Phlm", 1); ("Heb", 13); ("Jas", 5); ("1Pet", 5);
   ("2Pet", 3); ("1John", 5); ("2John", 1); ("3John", 1); ("Jude", 1);
   ("Rev", 22)]%string.

Definition MAX_VERSES_PER_CHAPTER : nat := 200.

(** ** Index records: [struct.unpack('<III', idx_entry)] *)

Record idx_entry := mk_idx_entry {
  offset : N;
  size : N;
  comp_size : N
}.

Definition u32_le (b0 b1 b2 b3 : byte) : N :=
  (Byte.to_N b0 + 256 * Byte.to_N b1 + 65536 * Byte.to_N b2
   + 16777216 * Byte.to_N b3)%N.

(** [struct.unpack('<III', bs)]: raises [struct.error] unless [bs] has
    exactly 12 bytes. *)
Definition unpack_III (bs : list byte) : option idx_entry :=
  match bs with
  | [a0; a1; a2; a3; b0; b1; b2; b3; c0; c1; c2; c3] =>
      Some (mk_idx_entry (u32_le a0 a1 a2 a3) (u32_le b0 b1 b2 b3)
                         (u32_le c0 c1 c2 c3))
  | _ => None
  end.

Definition entry_size : nat := 12.

(** [num_entries = len(idx_data) // entry_size] *)
Definition num_entries (idx_data : list byte) : nat :=
  length idx_data / entry_size.

(** [idx_entry = idx_data[i*entry_size:(i+1)*entry_size]] unpacked. *)
Definition idx_entry_at (idx_data : list byte) (i : nat) : option idx_entry :=
  unpack_III (py_slice idx_data (i * entry_size) ((i + 1) * entry_size)).

(** ** Slot to reference: the book/chapter/verse guess of the writer loop *)

(** [book_idx = idx // (50 * MAX_VERSES_PER_CHAPTER)], and when
    [book_idx < len(KJV_BOOKS)] the triple [(book, chapter, verse)]. *)
Definition ref_of (idx : nat) : option (string * nat * nat) :=
  let book_idx := idx / (50 * MAX_VERSES_PER_CHAPTER) in
  if book_idx <? length KJV_BOOKS then
    let book := nth book_idx KJV_BOOKS ""%string in
    let chapter := ((idx mod (50 * MAX_VERSES_PER_CHAPTER)) / MAX_VERSES_PER_CHAPTER) + 1 in
    let verse := (idx mod MAX_VERSES_PER_CHAPTER) + 1 in
    Some (book, chapter, verse)
  else None.

(** ** [bytes.decode('utf-8', errors='ignore')]

    CPython's UTF-8 decoder: an invalid start byte is one erroneous byte;
    a bad continuation byte ends the erroneous range just before it (so the
    range is the maximal valid prefix of the sequence); a sequence cut by
    the end of the input is erroneous up to the end.  With
    [errors='ignore'] every erroneous range is dropped and decoding resumes
    after it.  Bytes are given as integers in [0, 255]. *)

Definition is_cont (b : Z) : bool := (128 <=? b)%Z && (b <=? 191)%Z.

(** Second byte of a three-byte sequence: [E0] needs [A0..BF], [ED] needs
    [80..9F] (no surrogates). *)
Definition second_ok3 (b0 b1 : Z) : bool :=
  is_cont b1 && negb (if (b1 <? 160)%Z then (b0 =? 224)%Z else (b0 =? 237)%Z).

(** Second byte of a four-byte sequence: [F0] needs [90..BF], [F4] needs
    [80..8F]. *)
Definition second_ok4 (b0 b1 : Z) : bool :=
  is_cont b1 && negb (if (b1 <? 144)%Z then (b0 =? 240)%Z else (b0 =? 244)%Z).

Definition cp2 (b0 b1 : Z) : Z :=
  Z.lor (Z.shiftl (Z.land b0 31) 6) (Z.land b1 63).
Definition cp3 (b0 b1 b2 : Z) : Z :=
  Z.lor (Z.lor (Z.shiftl (Z.land b0 15) 12) (Z.shiftl (Z.land b1 63) 6))
        (Z.land b2 63).
Definition cp4 (b0 b1 b2 b3 : Z) : Z :=
  Z.lor (Z.lor (Z.shiftl (Z.land b0 7) 18) (Z.shiftl (Z.land b1 63) 12))
        (Z.lor (Z.shiftl (Z.land b2 63) 6) (Z.land b3 63)).

Fixpoint utf8_decode_ignore (l : list Z) : list Z :=
  match l with
  | [] => []
  | b0 :: t0 =>
      if (b0 <? 128)%Z then b0 :: utf8_decode_ignore t0
      else if (b0 <? 194)%Z then utf8_decode_ignore t0
      else if (b0 <? 224)%Z then
        match t0 with
        | [] => []
        | b1 :: t1 =>
            if is_cont b1 then cp2 b0 b1 :: utf8_decode_ignore t1
            else utf8_decode_ignore t0
        end
      else if (b0 <? 240)%Z then
        match t0 with
        | [] => []
        | b1 :: t1 =>
            if second_ok3 b0 b1 then
              match t1 with
              | [] => []
              | b2 :: t2 =>
                  if is_cont b2 then cp3 b0 b1 b2 :: utf8_decode_ignore t2
                  else utf8_decode_ignore t1
              end
            else utf8_decode_ignore t0
        end
      else if (b0 <? 245)%Z then
        match t0 with
        | [] => []
        | b1 :: t1 =>
            if second_ok4 b0 b1 then
              match t1 with
              | [] => []
              | b2 :: t2 =>
                  if is_cont b2 then
                    match t2 with
                    | [] => []
                    | b3 :: t3 =>
                        if is_cont b3 then cp4 b0 b1 b2 b3 :: utf8_decode_ignore t3
                        else utf8_decode_ignore t2
                    end
                  else utf8_decode_ignore t1
              end
            else utf8_decode_ignore t0
        end
      else utf8_decode_ignore t0
  end.

Definition byte_to_Z (b : byte) : Z := Z.of_N (Byte.to_N b).

(** ** The decode loop of [read_sword_index] *)

(** A Python [dict] with [int] keys, in insertion order. *)
Definition entries := list (nat * list Z).

(** [entries[k] = v]: overwrite in place, or append a new key. *)
Fixpoint dict_set (d : entries) (k : nat) (v : list Z) : entries :=
  match d with
  | [] => [(k, v)]
  | (k', v') :: d' =>
      if k =? k' then (k, v) :: d' else (k', v') :: dict_set d' k v
  end.

(** [dat.seek(offset); dat.read(n)] on a file whose content is [dat_data]. *)
Definition dat_read (dat_data : list byte) (off n : N) : list byte :=
  firstn (N.to_nat n) (skipn (N.to_nat off) dat_data).

(** Messages printed by [read_sword_index]. *)
Inductive msg :=
| IndexNotFound
| Reading (compressed : bool)
| FoundIndexEntries (n : nat)
| SuccessfullyRead (n : nat)
| ErrorReading.

(** The data subdirectory of a module: the four files [read_sword_index]
    looks for, [None] when the file does not exist. *)
Record data_dir := mk_data_dir {
  mhc_zdx : option (list byte);
  mhc_zdt : option (list byte);
  mhc_idx : option (list byte);
  mhc_dat : option (list byte)
}.

(** The file choice: [mhc.zdx]/[mhc.zdt] when [mhc.zdx] exists, otherwise
    [mhc.idx]/[mhc.dat]; the flag says which pair was taken. *)
Definition index_paths (d : data_dir)
  : option (list byte) * option (list byte) * bool :=
  match mhc_zdx d with
  | Some _ => (mhc_zdx d, mhc_zdt d, true)
  | None => (mhc_idx d, mhc_dat d, false)
  end.

Section Decoder.

(** [zlib.decompress]: [None] when it raises [zlib.error]. *)
Variable zlib_decompress : list byte -> option (list byte).

(** [zlib.decompress(compressed).decode('utf-8', errors='ignore')] and
    [text[:200]]; [None] when the [try] block raises. *)
Definition decode_payload (compressed : list byte) : option (list Z) :=
  match zlib_decompress compressed with
  | Some raw => Some (firstn 200 (utf8_decode_ignore (map byte_to_Z raw)))
  | None => None
  end.

(** The body of the loop once the entry is unpacked: [None] when nothing is
    stored for the slot. *)
Definition decode_entry (dat_data : list byte) (e : idx_entry) : option (list Z) :=
  if (0 <? offset e)%N && (0 <? size e)%N then
    decode_payload (dat_read dat_data (offset e) (comp_size e))
  else None.

(** One iteration; [None] when [struct.unpack] raises. *)
Definition step (idx_data dat_data : list byte) (acc : entries) (i : nat)
  : option entries :=
  match idx_entry_at idx_data i with
  | None => None
  | Some e =>
      Some (match decode_entry dat_data e with
            | Some text => dict_set acc i text
            | None => acc
            end)
  end.

(** The [for] loop; the flag is [false] when an exception left it (it is
    then caught by the outer [except], which keeps the entries so far). *)
Fixpoint scan (idx_data dat_data : list byte) (is : list nat) (acc : entries)
  : entries * bool :=
  match is with
  | [] => (acc, true)
  | i :: is' =>
      match step idx_data dat_data acc i with
      | None => (acc, false)
      | Some acc' => scan idx_data dat_data is' acc'
      end
  end.

(** The sample limit of the loop, [range(min(num_entries, 100))]. *)
Definition SAMPLE_LIMIT : nat := 100.

Definition read_sword_index (d : data_dir) : list msg * entries :=
  let '(idx_file, dat_file, compressed) := index_paths d in
  match idx_file with
  | None => ([IndexNotFound], [])
  | Some idx_data =>
      match dat_file with
      | None => ([Reading compressed; ErrorReading], [])
      | Some dat_data =>
          let n := num_entries idx_data in
          let '(ents, ok) :=
            scan idx_data dat_data (seq 0 (Nat.min n SAMPLE_LIMIT)) [] in
          if ok then
            ([Reading compressed; FoundIndexEntries n;
              SuccessfullyRead (length ents)], ents)
          else ([Reading compressed; FoundIndexEntries n; ErrorReading], ents)
      end
  end.

End Decoder.

(** ** The OSIS writer of [convert_module_to_osis] *)

Definition dq : list Z := [34%Z].
Definition nl : list Z := [10%Z].

(** Python [s.replace(c, rep)] for a one-character [c]. *)
Definition py_replace (s : list Z) (c : Z) (rep : list Z) : list Z :=
  flat_map (fun x => if (x =? c)%Z then rep else [x]) s.

Definition AMP : Z := 38.
Definition LT : Z := 60.
Definition GT : Z := 62.

(** [text.replace('&', '&amp;').replace('<', '&lt;').replace('>', '&gt;')] *)
Definition escape_text (text : list Z) : list Z :=
  py_replace (py_replace (py_replace text AMP (str "&amp;")) LT (str "&lt;"))
             GT (str "&gt;").

(** [f"{book}.{chapter}.{verse}"] *)
Definition osis_id (book : string) (chapter verse : nat) : list Z :=
  str book ++ str "." ++ py_str_nat chapter ++ str "." ++ py_str_nat verse.

(** [f'    <verse osisID="{osisID}">{escaped_text}</verse>\n'] *)
Definition verse_line (osisID escaped : list Z) : list Z :=
  str "    <verse osisID=" ++ dq ++ osisID ++ dq ++ str ">" ++ escaped
  ++ str "</verse>" ++ nl.

Definition header : list (list Z) :=
  [str "<?xml version=" ++ dq ++ str "1.0" ++ dq ++ str " encoding=" ++ dq
     ++ str "UTF-8" ++ dq ++ str "?>" ++ nl;
   str "<osis xmlns=" ++ dq
     ++ str "http://www.bibletechnologies.net/2003/OSIS/namespace" ++ dq
     ++ str ">" ++ nl;
   str "  <osisText osisIDWork=" ++ dq ++ str "Bible" ++ dq ++ str ">" ++ nl].

Definition footer : list (list Z) :=
  [str "  </osisText>" ++ nl; str "</osis>" ++ nl].

(** The body of [for idx, text in list(entries.items())[:50]]. *)
Definition emit (it : nat * list Z) : list (list Z) :=
  let '(idx, text) := it in
  match ref_of idx with
  | Some (book, chapter, verse) =>
      [verse_line (osis_id book chapter verse) (escape_text text)]
  | None => []
  end.

Definition WRITE_LIMIT : nat := 50.

(** The successive [f.write] arguments. *)
Definition write_osis (ents : entries) : list (list Z) :=
  header ++ flat_map emit (firstn WRITE_LIMIT ents) ++ footer.

(** ** [convert_module_to_osis] *)

(** Python [s.strip('./')]. *)
Definition strip_char (c : ascii) : bool :=
  (Ascii.eqb c "." || Ascii.eqb c "/")%bool.

Fixpoint lstrip (l : list ascii) : list ascii :=
  match l with
  | c :: l' => if strip_char c then lstrip l' else l
  | [] => []
  end.

Definition py_strip_dot_slash (s : string) : string :=
  string_of_list_ascii
    (rev (lstrip (rev (lstrip (list_ascii_of_string s))))).

(** A module directory: the parsed [mods.d/*.conf] files (each a list of
    sections with their [DataPath] value, [''] when absent) and the
    directories below the module directory, by relative path. *)
Record module_dir := mk_module_dir {
  conf_files : list (list (string * string));
  subdirs : string -> option data_dir
}.

(** The result: the returned flag and the written file, if any. *)
Definition convert_module_to_osis
    (zlib_decompress : list byte -> option (list byte)) (m : module_dir)
  : bool * option (list (list Z)) :=
  match conf_files m with
  | [] => (false, None)
  | conf :: _ =>
      match conf with
      | [] => (false, None)  (* IndexError on [list(config.sections())[0]] *)
      | (module_name, data_path_raw) :: _ =>
          let data_path := py_strip_dot_slash data_path_raw in
          match subdirs m data_path with
          | None => (false, None)
          | Some d =>
              let ents := snd (read_sword_index zlib_decompress d) in
              (true, Some (write_osis ents))
          end
      end
  end.

(** [main]: every module is converted in turn; the success count. *)
Definition main (zlib_decompress : list byte -> option (list byte))
    (mods : list module_dir) : nat * list (option (list (list Z))) :=
  fold_right (fun m '(n, outs) =>
                let '(ok, out) := convert_module_to_osis zlib_decompress m in
                ((if ok then S n else n), out :: outs))
             (0, []) mods.

(** ** Views used by the statements *)

(** [entries.get(k)] *)
Fixpoint dict_get (d : entries) (k : nat) : option (list Z) :=
  match d with
  | [] => None
  | (k', v) :: d' => if k =? k' then Some v else dict_get d' k
  end.

(** The little-endian u32 stored at byte position [k]. *)
Definition le32_at (l : list byte) (k : nat) : N :=
  u32_le (nth k l x00) (nth (k + 1) l x00) (nth (k + 2) l x00)
         (nth (k + 3) l x00).

(** What the loop stores for slot [i], if anything. *)
Definition slot_result (zlib_decompress : list byte -> option (list byte))
    (idx_data dat_data : list byte) (i : nat) : option (list Z) :=
  match idx_entry_at idx_data i with
  | Some e => decode_entry zlib_decompress dat_data e
  | None => None
  end.

Definition collect (zlib_decompress : list byte -> option (list byte))
    (idx_data dat_data : list byte) (is : list nat) : entries :=
  flat_map (fun i => match slot_result zlib_decompress idx_data dat_data i with
                     | Some t => [(i, t)]
                     | None => []
                     end) is.

(** Per character, the escape the writer applies. *)
Definition escape_char (c : Z) : list Z :=
  if (c =? AMP)%Z then str "&amp;"
  else if (c =? LT)%Z then str "&lt;"
  else if (c =? GT)%Z then str "&gt;"
  else [c].

(** How an XML parser reads the escaped text back: the three entity
    references the writer produces are replaced by their characters. *)
Fixpoint xml_unescape (l : list Z) : list Z :=
  match l with
  | [] => []
  | c :: r =>
      if (c =? AMP)%Z then
        match r with
        | 97%Z :: 109%Z :: 112%Z :: 59%Z :: r' => AMP :: xml_unescape r'
        | 108%Z :: 116%Z :: 59%Z :: r' => LT :: xml_unescape r'
        | 103%Z :: 116%Z :: 59%Z :: r' => GT :: xml_unescape r'
        | _ => c :: xml_unescape r
        end
      else c :: xml_unescape r
  end.

(** The element the spec describes for a slot that maps into the catalog:
    [work.subdivision.unit] computed with the spec's formulas. *)
Definition spec_element (it : nat * list Z) : list Z :=
  let '(i, text) := it in
  verse_line (osis_id (nth (i / (50 * 200)) KJV_BOOKS ""%string)
                      ((i mod (50 * 200)) / 200 + 1)
                      ((i mod (50 * 200)) mod 200 + 1))
             (escape_text text).

(** The spec's classification of a slot (decoded, skipped as empty, failed
    to read or decompress); the source keeps no such tally. *)
Inductive slot_outcome := Decoded | SkippedEmpty | FailedSlot.

Definition slot_outcome_eqb (a b : slot_outcome) : bool :=
  match a, b with
  | Decoded, Decoded | SkippedEmpty, SkippedEmpty | FailedSlot, FailedSlot => true
  | _, _ => false
  end.

Definition classify (zlib_decompress : list byte -> option (list byte))
    (idx_data dat_data : list byte) (i : nat) : slot_outcome :=
  match idx_entry_at idx_data i with
  | Some e =>
      if (0 <? offset e)%N && (0 <? size e)%N then
        match decode_payload zlib_decompress
                (dat_read dat_data (offset e) (comp_size e)) with
        | Some _ => Decoded
        | None => FailedSlot
        end
      else SkippedEmpty
  | None => FailedSlot
  end.

(** How many of the scanned slots have outcome [o]. *)
Definition count_outcome (zlib_decompress : list byte -> option (list byte))
    (idx_data dat_data : list byte) (o : slot_outcome) : nat :=
  length (filter (fun i => slot_outcome_eqb (classify zlib_decompress idx_data dat_data i) o)
                 (seq 0 (Nat.min (num_entries idx_data) SAMPLE_LIMIT))).

(** ** A concrete [zlib.decompress] for stored (uncompressed) blocks

    It accepts a zlib header, a sequence of stored DEFLATE blocks and the
    Adler-32 trailer, and returns what [zlib.decompress] returns for such
    a stream.  It rejects Huffman-coded blocks (which zlib would decode),
    so it only stands in for zlib on stored streams and on malformed
    input, e.g. the empty or a truncated stream. *)

Fixpoint adler_aux (a b : Z) (l : list byte) : Z * Z :=
  match l with
  | [] => (a, b)
  | x :: l' =>
      let a' := ((a + byte_to_Z x) mod 65521)%Z in
      adler_aux a' ((b + a') mod 65521)%Z l'
  end.

Definition adler32 (l : list byte) : Z :=
  let '(a, b) := adler_aux 1 0 l in (b * 65536 + a)%Z.

Fixpoint stored_blocks (fuel : nat) (l acc : list byte)
  : option (list byte * list byte) :=
  match fuel with
  | 0 => None
  | S f =>
      match l with
      | h :: l0 :: l1 :: n0 :: n1 :: rest =>
          let hz := byte_to_Z h in
          let len := (byte_to_Z l0 + 256 * byte_to_Z l1)%Z in
          let nlen := (byte_to_Z n0 + 256 * byte_to_Z n1)%Z in
          if (Z.land (Z.shiftr hz 1) 3 =? 0)%Z && (Z.lxor len nlen =? 65535)%Z
             && (len <=? Z.of_nat (length rest))%Z then
            let data := firstn (Z.to_nat len) rest in
            let rest' := skipn (Z.to_nat len) rest in
            if Z.testbit hz 0 then Some (acc ++ data, rest')
            else stored_blocks f rest' (acc ++ data)
          else None
      | _ => None
      end
  end.

Definition inflate_stored (l : list byte) : option (list byte) :=
  match l with
  | cmf :: flg :: rest =>
      let c := byte_to_Z cmf in
      let g := byte_to_Z flg in
      if (Z.land c 15 =? 8)%Z && (Z.shiftr c 4 <=? 7)%Z
         && ((c * 256 + g) mod 31 =? 0)%Z && negb (Z.testbit g 5) then
        match stored_blocks (length rest) rest [] with
        | Some (data, a0 :: a1 :: a2 :: a3 :: _) =>
            if (byte_to_Z a0 * 16777216 + byte_to_Z a1 * 65536
                + byte_to_Z a2 * 256 + byte_to_Z a3 =? adler32 data)%Z
            then Some data else None
        | _ => None
        end
      else None
  | _ => None
  end.

Definition byte_of_Z (z : Z) : byte :=
  match Byte.of_N (Z.to_N (z mod 256)) with Some b => b | None => x00 end.

(** [zlib.compress(data, 0)] for data of fewer than 65536 bytes: one final
    stored block. *)
Definition zlib_store (data : list byte) : list byte :=
  let len := Z.of_nat (length data) in
  let a := adler32 data in
  [x78; x01; x01; byte_of_Z len; byte_of_Z (Z.shiftr len 8);
   byte_of_Z (Z.lxor len 65535); byte_of_Z (Z.shiftr (Z.lxor len 65535) 8)]
  ++ data
  ++ [byte_of_Z (Z.shiftr a 24); byte_of_Z (Z.shiftr a 16);
      byte_of_Z (Z.shiftr a 8); byte_of_Z a].

Definition bytes_of_str (s : string) : list byte :=
  map (fun c => byte_of_Z (Z.of_nat (nat_of_ascii c))) (list_ascii_of_string s).

(** A 12-byte index record. *)
Definition le32_bytes (n : Z) : list byte :=
  [byte_of_Z n; byte_of_Z (Z.shiftr n 8); byte_of_Z (Z.shiftr n 16);
   byte_of_Z (Z.shiftr n 24)].

Definition pack_III (o s c : Z) : list byte :=
  le32_bytes o ++ le32_bytes s ++ le32_bytes c.

(** ** Sanity checks on concrete inputs *)

Example inflate_hello :
  inflate_stored (zlib_store (bytes_of_str "Hello")) = Some (bytes_of_str "Hello").
Proof. vm_compute. reflexivity. Qed.

Example inflate_empty : inflate_stored [] = None.
Proof. reflexivity. Qed.

Example utf8_two_byte : utf8_decode_ignore [195; 169]%Z = [233]%Z.
Proof. reflexivity. Qed.

Example utf8_bad_cont : utf8_decode_ignore [226; 130; 65]%Z = [65]%Z.
Proof. reflexivity. Qed.

Example ref_of_gen : ref_of 0 = Some ("Gen"%string, 1, 1).
Proof. reflexivity. Qed.

Example ref_of_ruth : ref_of (7 * 10000 + 49 * 200 + 199) = Some ("Ruth"%string, 50, 200).
Proof. vm_compute. reflexivity. Qed.

Example osis_id_sample : osis_id "Gen" 12 305 = str "Gen.12.305".
Proof. reflexivity. Qed.

Example escape_sample : escape_text (str "a<b&c>") = str "a&lt;b&amp;c&gt;".
Proof. reflexivity. Qed.

(** A Unicode scalar value: a code point that is not a surrogate. *)
Definition is_scalar (c : Z) : Prop :=
  (0 <= c <= 1114111)%Z /\ ~ (55296 <= c <= 57343)%Z.

(** The UTF-8 encoding of a scalar value, as [str.encode('utf-8')]
    produces it. *)
Definition utf8_encode (c : Z) : list Z :=
  if (c <? 128)%Z then [c]
  else if (c <? 2048)%Z then [192 + c / 64; 128 + c mod 64]%Z
  else if (c <? 65536)%Z then
    [224 + c / 4096; 128 + (c / 64) mod 64; 128 + c mod 64]%Z
  else [240 + c / 262144; 128 + (c / 4096) mod 64; 128 + (c / 64) mod 64;
        128 + c mod 64]%Z.

(** [bs] is a prefix of the UTF-8 encoding of some scalar value. *)
Definition enc_prefix (bs : list Z) : Prop :=
  exists c r, is_scalar c /\ utf8_encode c = bs ++ r.

(** A maximal subpart of an ill-formed byte sequence (Unicode, section 3.9),
    followed by [rest]: a non-empty run of byte values that is not the
    encoding of a character and is either a single byte or a prefix of some
    character's encoding, and that the next byte of [rest], if any, does not
    extend to a longer such prefix. *)
Definition invalid_subpart (bs rest : list Z) : Prop :=
  bs <> [] /\ Forall (fun b => 0 <= b < 256)%Z bs /\
  (forall c, is_scalar c -> utf8_encode c <> bs) /\
  (length bs = 1 \/ enc_prefix bs) /\
  (forall b rest', rest = b :: rest' -> ~ enc_prefix (bs ++ [b])).

(** Reading side of the osisID attribute: the [.]-separated fields of the
    value and the [int] of a decimal field. *)
Fixpoint split_on (sep : Z) (l : list Z) : list (list Z) :=
  match l with
  | [] => [[]]
  | x :: r =>
      if (x =? sep)%Z then [] :: split_on sep r
      else match split_on sep r with
           | p :: ps => (x :: p) :: ps
           | [] => [[x]]
           end
  end.

Definition is_digit (d : Z) : bool := (48 <=? d)%Z && (d <=? 57)%Z.

Definition digit_step (a : nat) (d : Z) : nat := a * 10 + Z.to_nat (d - 48).

Definition parse_nat (l : list Z) : option nat :=
  match l with
  | [] => None
  | _ => if forallb is_digit l then Some (fold_left digit_step l 0) else None
  end.

Definition parse_osis_id (l : list Z) : option (list Z * nat * nat) :=
  match split_on 46 l with
  | [b; c; v] =>
      match parse_nat c, parse_nat v with
      | Some c', Some v' => Some (b, c', v')
      | _, _ => None
      end
  | _ => None
  end.

(** ** Index parsing *)

Lemma firstn_skipn_as_nth (n k : nat) (l : list byte) :
  k + n <= length l ->
  firstn n (skipn k l) = map (fun j => nth (k + j) l x00) (seq 0 n).
Proof.
  revert k. induction n as [|n IH]; intros k Hk; [reflexivity|].
  destruct (skipn k l) as [|x r] eqn:Hs.
  - exfalso. apply (f_equal (@length byte)) in Hs.
    rewrite length_skipn in Hs. simpl in Hs. lia.
  - simpl. rewrite <- seq_shift, map_map. f_equal.
    + rewrite <- (nth_skipn k l 0 x00), Hs. reflexivity.
    + assert (Hr : r = skipn (S k) l).
      { replace (S k) with (1 + k) by lia. rewrite <- skipn_skipn, Hs. reflexivity. }
      rewrite Hr, (IH (S k)) by lia.
      apply map_ext. intros j. f_equal. lia.
Qed.

Lemma idx_entry_at_complete (idx_data : list byte) (i : nat) :
  i < num_entries idx_data ->
  idx_entry_at idx_data i =
  Some (mk_idx_entry (le32_at idx_data (i * 12)) (le32_at idx_data (i * 12 + 4))
                     (le32_at idx_data (i * 12 + 8))).
Proof.
  unfold num_entries, idx_entry_at, py_slice, entry_size. intros Hi.
  assert (Hle : i * 12 + 12 <= length idx_data).
  { assert (Hd : 12 * (length idx_data / 12) <= length idx_data)
      by apply Nat.Div0.mul_div_le.
    lia. }
  replace ((i + 1) * 12 - i * 12) with 12 by lia.
  rewrite (firstn_skipn_as_nth 12 (i * 12)) by lia.
  unfold le32_at. cbn [seq map unpack_III].
  rewrite ?Nat.add_0_r, <- ?Nat.add_assoc. reflexivity.
Qed.

(** ** The decode loop *)

Lemma dict_set_fresh (d : entries) (k : nat) (v : list Z) :
  Forall (fun p => fst p <> k) d -> dict_set d k v = d ++ [(k, v)].
Proof.
  induction d as [|[k' v'] d IH]; intros Hf; [reflexivity|].
  inversion Hf as [|? ? Hk Hrest]; subst. simpl in Hk |- *.
  destruct (Nat.eqb_spec k k') as [->|_]; [congruence|].
  rewrite IH by exact Hrest. reflexivity.
Qed.

Section Loop.
Variable zlib_decompress : list byte -> option (list byte).
Variables idx_data dat_data : list byte.

Lemma scan_seq (k s : nat) (acc : entries) :
  s + k <= num_entries idx_data ->
  Forall (fun p => fst p < s) acc ->
  scan zlib_decompress idx_data dat_data (seq s k) acc =
  (acc ++ collect zlib_decompress idx_data dat_data (seq s k), true).
Proof.
  revert s acc. induction k as [|k IH]; intros s acc Hk Hacc.
  - simpl. rewrite app_nil_r. reflexivity.
  - cbn [seq scan]. unfold step.
    rewrite (idx_entry_at_complete idx_data s) by lia.
    unfold collect. cbn [flat_map]. unfold slot_result at 1.
    rewrite (idx_entry_at_complete idx_data s) by lia.
    destruct (decode_entry zlib_decompress dat_data _) as [t|] eqn:Hd.
    + assert (Hacc' : Forall (fun p => fst p < S s) acc).
      { eapply Forall_impl; [|exact Hacc]. simpl. intros; lia. }
      rewrite dict_set_fresh
        by (eapply Forall_impl; [|exact Hacc]; simpl; intros; lia).
      rewrite (IH (S s)).
      * rewrite <- app_assoc. reflexivity.
      * lia.
      * apply Forall_app. split; [exact Hacc'|]. constructor; [simpl; lia | constructor].
    + rewrite (IH (S s)); [reflexivity | lia |].
      eapply Forall_impl; [|exact Hacc]. simpl. intros; lia.
Qed.

Lemma collect_keys (k s : nat) :
  Forall (fun p => s <= fst p < s + k)
         (collect zlib_decompress idx_data dat_data (seq s k)).
Proof.
  revert s. induction k as [|k IH]; intros s; [constructor|].
  unfold collect in *. cbn [seq flat_map].
  apply Forall_app. split.
  - destruct (slot_result _ _ _ s); repeat constructor; simpl; lia.
  - eapply Forall_impl; [|apply IH]. simpl. intros; lia.
Qed.

Lemma dict_get_collect (k s j : nat) :
  dict_get (collect zlib_decompress idx_data dat_data (seq s k)) j =
  if (s <=? j) && (j <? s + k) then slot_result zlib_decompress idx_data dat_data j
  else None.
Proof.
  revert s. induction k as [|k IH]; intros s.
  - simpl. destruct (s <=? j) eqn:E1, (j <? s + 0) eqn:E2; try reflexivity.
    apply Nat.leb_le in E1. apply Nat.ltb_lt in E2. lia.
  - unfold collect in *. cbn [seq flat_map].
    destruct (Nat.eq_dec j s) as [->|Hne].
    + rewrite Nat.leb_refl, (proj2 (Nat.ltb_lt s (s + S k))) by lia.
      destruct (slot_result _ _ _ s) as [t|] eqn:Hs.
      * simpl. rewrite Nat.eqb_refl. reflexivity.
      * simpl. rewrite IH.
        replace (S s <=? s) with false by (symmetry; apply Nat.leb_gt; lia).
        reflexivity.
    + assert (Hstep : dict_get (match slot_result zlib_decompress idx_data dat_data s with
                                | Some t => [(s, t)] | None => [] end
                                ++ flat_map (fun i => match slot_result zlib_decompress idx_data dat_data i with
                                                      | Some t => [(i, t)] | None => [] end)
                                            (seq (S s) k)) j =
                      dict_get (flat_map (fun i => match slot_result zlib_decompress idx_data dat_data i with
                                                   | Some t => [(i, t)] | None => [] end)
                                         (seq (S s) k)) j).
      { destruct (slot_result _ _ _ s); simpl; [|reflexivity].
        apply Nat.eqb_neq in Hne. rewrite Hne. reflexivity. }
      rewrite Hstep, IH.
      replace (s + S k) with (S s + k) by lia.
      destruct (Nat.leb_spec s j), (Nat.leb_spec (S s) j);
        simpl; try reflexivity; lia.
Qed.

End Loop.

Lemma read_sword_index_found (zlib_decompress : list byte -> option (list byte))
    (d : data_dir) (idx_data dat_data : list byte) (c : bool) :
  index_paths d = (Some idx_data, Some dat_data, c) ->
  let ents := collect zlib_decompress idx_data dat_data
                (seq 0 (Nat.min (num_entries idx_data) SAMPLE_LIMIT)) in
  read_sword_index zlib_decompress d =
  ([Reading c; FoundIndexEntries (num_entries idx_data);
    SuccessfullyRead (length ents)], ents).
Proof.
  intros Hp ents. unfold read_sword_index. rewrite Hp.
  rewrite scan_seq by (try constructor; lia). reflexivity.
Qed.

Lemma read_sword_index_no_index (zlib_decompress : list byte -> option (list byte))
    (d : data_dir) :
  mhc_zdx d = None -> mhc_idx d = None ->
  read_sword_index zlib_decompress d = ([IndexNotFound], []).
Proof.
  intros Hz Hi. unfold read_sword_index, index_paths. rewrite Hz, Hi. reflexivity.
Qed.

(** ** Escaping *)

Lemma escape_text_cons (x : Z) (s : list Z) :
  escape_text (x :: s) = escape_char x ++ escape_text s.
Proof.
  unfold escape_text, py_replace. change (x :: s) with ([x] ++ s).
  rewrite !flat_map_app. f_equal. unfold escape_char. cbn [flat_map].
  destruct (Z.eqb_spec x AMP) as [->|H1]; [reflexivity|]. cbn [flat_map app].
  destruct (Z.eqb_spec x LT) as [->|H2]; [reflexivity|]. cbn [flat_map app].
  destruct (Z.eqb_spec x GT) as [->|H3]; reflexivity.
Qed.

Lemma unescape_amp (r : list Z) : xml_unescape (str "&amp;" ++ r) = AMP :: xml_unescape r.
Proof. reflexivity. Qed.

Lemma unescape_lt (r : list Z) : xml_unescape (str "&lt;" ++ r) = LT :: xml_unescape r.
Proof. reflexivity. Qed.

Lemma unescape_gt (r : list Z) : xml_unescape (str "&gt;" ++ r) = GT :: xml_unescape r.
Proof. reflexivity. Qed.

(** ** Slot mapping *)

Lemma verse_mod_nested (i : nat) : i mod 200 = (i mod (50 * 200)) mod 200.
Proof.
  rewrite Nat.mul_comm, Nat.Div0.mod_mul_r, Nat.mul_comm, Nat.Div0.mod_add,
    Nat.Div0.mod_mod. reflexivity.
Qed.

Lemma ref_of_in_catalog (i : nat) :
  i / (50 * 200) < length KJV_BOOKS ->
  ref_of i = Some (nth (i / (50 * 200)) KJV_BOOKS ""%string,
                   (i mod (50 * 200)) / 200 + 1,
                   (i mod (50 * 200)) mod 200 + 1).
Proof.
  intros Hi. unfold ref_of, MAX_VERSES_PER_CHAPTER. cbv beta zeta.
  rewrite (proj2 (Nat.ltb_lt _ _) Hi), <- verse_mod_nested. reflexivity.
Qed.

Lemma collect_ext_in (z : list byte -> option (list byte))
    (idx1 dat1 idx2 dat2 : list byte) (is : list nat) :
  (forall i, In i is -> slot_result z idx1 dat1 i = slot_result z idx2 dat2 i) ->
  collect z idx1 dat1 is = collect z idx2 dat2 is.
Proof.
  induction is as [|i is IH]; intros H; [reflexivity|].
  unfold collect in *. cbn [flat_map].
  rewrite (H i (or_introl eq_refl)), IH; [reflexivity|].
  intros j Hj. apply H. right. exact Hj.
Qed.

Lemma read_sword_index_entries (z : list byte -> option (list byte))
    (d : data_dir) (idx_data dat_data : list byte) (c : bool) (j : nat) :
  index_paths d = (Some idx_data, Some dat_data, c) ->
  dict_get (snd (read_sword_index z d)) j =
  if j <? Nat.min (num_entries idx_data) SAMPLE_LIMIT
  then slot_result z idx_data dat_data j else None.
Proof.
  intros Hp. rewrite (read_sword_index_found z d idx_data dat_data c Hp).
  cbn [snd]. rewrite dict_get_collect. reflexivity.
Qed.

(** ** Claims *)

(** C1: for every slot [i] with [i / (50*200) < 66], the writer's guess is
    [(KJV_BOOKS[i / 10000], (i mod 10000) / 200 + 1, (i mod 10000) mod 200 + 1)],
    with the fixed capacities 50 and 200 for every book; the source's verse
    formula [(i mod 200) + 1] is the spec's [((i mod 10000) mod 200) + 1]. *)
Theorem ref_of_fixed_capacity (i : nat) :
  i / (50 * 200) < length KJV_BOOKS ->
  ref_of i = Some (nth (i / (50 * 200)) KJV_BOOKS ""%string,
                   (i mod (50 * 200)) / 200 + 1,
                   (i mod (50 * 200)) mod 200 + 1)
  /\ (i mod 200) + 1 = ((i mod (50 * 200)) mod 200) + 1.
Proof.
  intros Hi. split; [exact (ref_of_in_catalog i Hi)|].
  rewrite verse_mod_nested. reflexivity.
Qed.

Lemma ref_of_fixed_capacity_witness :
  12345 / (50 * 200) < length KJV_BOOKS /\
  (ref_of 12345 = Some (nth (12345 / (50 * 200)) KJV_BOOKS ""%string,
                        (12345 mod (50 * 200)) / 200 + 1,
                        (12345 mod (50 * 200)) mod 200 + 1)
   /\ (12345 mod 200) + 1 = ((12345 mod (50 * 200)) mod 200) + 1).
Proof.
  assert (H : 12345 / (50 * 200) < length KJV_BOOKS)
    by (apply Nat.ltb_lt; vm_compute; reflexivity).
  split; [exact H | exact (ref_of_fixed_capacity 12345 H)].
Defined.

(** C2: the index holds [len(idx_data) // 12] records; each one sits in a
    complete 12-byte block and is read as three little-endian u32 fields
    (offset, size, compressed size); a trailing partial block is never read.
    The decode loop goes over the first [min(len // 12, 100)] of them and
    ends without error; an empty index gives zero records and no error. *)
Theorem index_reader_records (zlib_decompress : list byte -> option (list byte))
    (d : data_dir) (idx_data dat_data : list byte) (c : bool) :
  index_paths d = (Some idx_data, Some dat_data, c) ->
  num_entries idx_data = length idx_data / 12 /\
  (forall i, i < num_entries idx_data ->
     idx_entry_at idx_data i =
     Some (mk_idx_entry (le32_at idx_data (i * 12)) (le32_at idx_data (i * 12 + 4))
                        (le32_at idx_data (i * 12 + 8)))) /\
  (let ents := collect zlib_decompress idx_data dat_data
                 (seq 0 (Nat.min (length idx_data / 12) SAMPLE_LIMIT)) in
   read_sword_index zlib_decompress d =
   ([Reading c; FoundIndexEntries (length idx_data / 12);
     SuccessfullyRead (length ents)], ents)) /\
  (idx_data = [] ->
   read_sword_index zlib_decompress d =
   ([Reading c; FoundIndexEntries 0; SuccessfullyRead 0], [])).
Proof.
  intros Hp. split; [reflexivity|]. split; [apply idx_entry_at_complete|].
  split.
  - exact (read_sword_index_found zlib_decompress d idx_data dat_data c Hp).
  - intros ->. rewrite (read_sword_index_found zlib_decompress d [] dat_data c Hp).
    reflexivity.
Qed.

Definition sample_dir : data_dir :=
  mk_data_dir (Some (pack_III 1 5 16 ++ [x00]))
              (Some ([x00] ++ zlib_store (bytes_of_str "Hello"))) None None.

Lemma index_reader_records_witness :
  index_paths sample_dir =
    (Some (pack_III 1 5 16 ++ [x00]),
     Some ([x00] ++ zlib_store (bytes_of_str "Hello")), true) /\
  read_sword_index inflate_stored sample_dir =
    ([Reading true; FoundIndexEntries 1; SuccessfullyRead 1],
     [(0, str "Hello")]).
Proof.
  assert (Hp : index_paths sample_dir =
    (Some (pack_III 1 5 16 ++ [x00]),
     Some ([x00] ++ zlib_store (bytes_of_str "Hello")), true)) by reflexivity.
  split; [exact Hp|].
  destruct (index_reader_records inflate_stored sample_dir _ _ true Hp)
    as (_ & _ & Hr & _).
  rewrite Hr. vm_compute. reflexivity.
Defined.

(** C6: a slot resolves to a reference exactly when it is below
    [50 * 200 * len(KJV_BOOKS)]; a slot at or above that bound writes no
    element. *)
Theorem slot_capacity_bound :
  (forall i, (exists r, ref_of i = Some r) <-> i < 50 * 200 * length KJV_BOOKS) /\
  (forall i text, 50 * 200 * length KJV_BOOKS <= i -> emit (i, text) = []).
Proof.
  assert (Hb : forall i, i / (50 * 200) < length KJV_BOOKS <->
                         i < 50 * 200 * length KJV_BOOKS).
  { intros i. change (length KJV_BOOKS) with 66.
    assert (Hd := Nat.div_mod_eq i (50 * 200)).
    assert (Hm : i mod (50 * 200) < 50 * 200) by (apply Nat.mod_upper_bound; lia).
    lia. }
  split.
  - intros i. rewrite <- Hb. unfold ref_of, MAX_VERSES_PER_CHAPTER. cbv beta zeta.
    destruct (Nat.ltb_spec (i / (50 * 200)) (length KJV_BOOKS)) as [H|H].
    + split; [intros _; exact H | intros _; eexists; reflexivity].
    + split; [intros [r Hr]; discriminate | intros H'; lia].
  - intros i text Hi. unfold emit, ref_of, MAX_VERSES_PER_CHAPTER. cbv beta zeta.
    destruct (Nat.ltb_spec (i / (50 * 200)) (length KJV_BOOKS)) as [H|H];
      [apply Hb in H; lia | reflexivity].
Qed.

(** C8: the writer's escape replaces [&], [<] and [>] by [&amp;], [&lt;] and
    [&gt;] and leaves every other character alone, character by character
    (so the [&] introduced for [<] and [>] is not escaped again); reading
    the entity references back gives the original text. *)
Theorem escape_text_lossless (text : list Z) :
  escape_text text = flat_map escape_char text /\
  (forall c, c <> AMP -> c <> LT -> c <> GT -> escape_char c = [c]) /\
  xml_unescape (escape_text text) = text.
Proof.
  assert (Hflat : forall s, escape_text s = flat_map escape_char s).
  { induction s as [|x s IH]; [reflexivity|].
    rewrite escape_text_cons, IH. reflexivity. }
  split; [apply Hflat|]. split.
  - intros c H1 H2 H3. unfold escape_char.
    apply Z.eqb_neq in H1, H2, H3. rewrite H1, H2, H3. reflexivity.
  - induction text as [|x s IH]; [reflexivity|].
    rewrite escape_text_cons. unfold escape_char.
    destruct (Z.eqb_spec x AMP) as [->|H1];
      [rewrite unescape_amp, IH; reflexivity|].
    destruct (Z.eqb_spec x LT) as [->|H2];
      [rewrite unescape_lt, IH; reflexivity|].
    destruct (Z.eqb_spec x GT) as [->|H3];
      [rewrite unescape_gt, IH; reflexivity|].
    cbn [app xml_unescape]. apply Z.eqb_neq in H1. rewrite H1, IH. reflexivity.
Qed.

(** C10: two index files that differ only in the (positive) size field of
    their records, read against the same data file, give the same printed
    report and the same entries: the size is only tested against zero, and
    only the compressed size decides how many bytes are read. *)
Theorem size_field_noninterference (z : list byte -> option (list byte))
    (d1 d2 : data_dir) (idx1 idx2 dat_data : list byte) (c : bool) :
  index_paths d1 = (Some idx1, Some dat_data, c) ->
  index_paths d2 = (Some idx2, Some dat_data, c) ->
  length idx1 = length idx2 ->
  (forall i e1 e2, idx_entry_at idx1 i = Some e1 -> idx_entry_at idx2 i = Some e2 ->
     offset e1 = offset e2 /\ comp_size e1 = comp_size e2 /\
     (size e1 = size e2 \/ (0 < size e1 /\ 0 < size e2))%N) ->
  read_sword_index z d1 = read_sword_index z d2.
Proof.
  intros H1 H2 Hlen Hrel.
  rewrite (read_sword_index_found z d1 idx1 dat_data c H1),
          (read_sword_index_found z d2 idx2 dat_data c H2).
  assert (Hn : num_entries idx1 = num_entries idx2)
    by (unfold num_entries; rewrite Hlen; reflexivity).
  rewrite <- Hn.
  rewrite (collect_ext_in z idx1 dat_data idx2 dat_data); [reflexivity|].
  intros i Hi. apply in_seq in Hi.
  assert (Hi1 : i < num_entries idx1) by lia.
  assert (Hi2 : i < num_entries idx2) by lia.
  unfold slot_result.
  destruct (idx_entry_at idx1 i) as [e1|] eqn:E1;
    [|rewrite idx_entry_at_complete in E1 by exact Hi1; discriminate].
  destruct (idx_entry_at idx2 i) as [e2|] eqn:E2;
    [|rewrite idx_entry_at_complete in E2 by exact Hi2; discriminate].
  destruct (Hrel i e1 e2 E1 E2) as (Ho & Hc & Hs).
  unfold decode_entry. rewrite Ho, Hc.
  destruct Hs as [Hs | [Hs1 Hs2]].
  - rewrite Hs. reflexivity.
  - rewrite (proj2 (N.ltb_lt _ _) Hs1), (proj2 (N.ltb_lt _ _) Hs2). reflexivity.
Qed.

Definition hello_dat : list byte := [x00] ++ zlib_store (bytes_of_str "Hello").

Lemma size_field_noninterference_witness :
  read_sword_index inflate_stored
    (mk_data_dir (Some (pack_III 1 5 16)) (Some hello_dat) None None) =
  read_sword_index inflate_stored
    (mk_data_dir (Some (pack_III 1 999 16)) (Some hello_dat) None None).
Proof.
  apply (size_field_noninterference inflate_stored _ _
           (pack_III 1 5 16) (pack_III 1 999 16) hello_dat true);
    [reflexivity | reflexivity | reflexivity |].
  intros i e1 e2 E1 E2. destruct i as [|i].
  - vm_compute in E1, E2. injection E1 as <-. injection E2 as <-.
    split; [reflexivity|]. split; [reflexivity|]. right. split; reflexivity.
  - assert (Hl : length (pack_III 1 5 16) = 12) by reflexivity.
    unfold idx_entry_at, py_slice, entry_size in E1.
    rewrite skipn_all2 in E1 by lia. rewrite firstn_nil in E1. discriminate.
Defined.

(** C3: a slot whose payload does not decompress only loses its own entry:
    every slot among the first [min(len // 12, 100)] is stored or not
    according to its own record alone, the loop always runs to its end, and
    the report printed is the number of index records and the number of
    entries read. *)
Theorem decode_failure_isolated (z : list byte -> option (list byte))
    (d : data_dir) (idx_data dat_data : list byte) (c : bool) :
  index_paths d = (Some idx_data, Some dat_data, c) ->
  (forall j, dict_get (snd (read_sword_index z d)) j =
             if j <? Nat.min (num_entries idx_data) SAMPLE_LIMIT
             then slot_result z idx_data dat_data j else None) /\
  fst (read_sword_index z d) =
  [Reading c; FoundIndexEntries (num_entries idx_data);
   SuccessfullyRead (length (snd (read_sword_index z d)))].
Proof.
  intros Hp. split.
  - intros j. apply (read_sword_index_entries z d idx_data dat_data c j Hp).
  - rewrite (read_sword_index_found z d idx_data dat_data c Hp). reflexivity.
Qed.

Definition corrupt_dir : data_dir :=
  mk_data_dir (Some (pack_III 1 5 16 ++ pack_III 1 5 3 ++ pack_III 1 5 16))
              (Some hello_dat) None None.

Lemma decode_failure_isolated_witness :
  index_paths corrupt_dir =
    (Some (pack_III 1 5 16 ++ pack_III 1 5 3 ++ pack_III 1 5 16),
     Some hello_dat, true) /\
  dict_get (snd (read_sword_index inflate_stored corrupt_dir)) 1 = None /\
  dict_get (snd (read_sword_index inflate_stored corrupt_dir)) 2 = Some (str "Hello").
Proof.
  assert (Hp : index_paths corrupt_dir =
    (Some (pack_III 1 5 16 ++ pack_III 1 5 3 ++ pack_III 1 5 16),
     Some hello_dat, true)) by reflexivity.
  destruct (decode_failure_isolated inflate_stored corrupt_dir _ _ true Hp)
    as [Hget _].
  split; [exact Hp|].
  rewrite !Hget. vm_compute. split; reflexivity.
Defined.

(** C3, as stated, asks for a report of the skipped and failed counts.  An
    index whose second slot is empty and one whose second slot is corrupt
    have different counts, yet [read_sword_index] prints and returns exactly
    the same thing for both. *)
Lemma decode_counts_not_reported :
  let idxA := pack_III 1 5 16 ++ pack_III 0 0 0 in
  let idxB := pack_III 1 5 16 ++ pack_III 1 5 3 in
  count_outcome inflate_stored idxA hello_dat SkippedEmpty = 1 /\
  count_outcome inflate_stored idxA hello_dat FailedSlot = 0 /\
  count_outcome inflate_stored idxB hello_dat SkippedEmpty = 0 /\
  count_outcome inflate_stored idxB hello_dat FailedSlot = 1 /\
  read_sword_index inflate_stored (mk_data_dir (Some idxA) (Some hello_dat) None None) =
  read_sword_index inflate_stored (mk_data_dir (Some idxB) (Some hello_dat) None None).
Proof. vm_compute. repeat split; reflexivity. Qed.

(** C7: a record whose offset or size is zero stores nothing: the loop
    iteration leaves the entries unchanged and goes on, and the slot has no
    entry in the result.  No exception is raised and nothing is counted. *)
Theorem empty_slot_skipped (z : list byte -> option (list byte))
    (idx_data dat_data : list byte) (acc : entries) (j : nat) (e : idx_entry) :
  idx_entry_at idx_data j = Some e ->
  (offset e = 0 \/ size e = 0)%N ->
  step z idx_data dat_data acc j = Some acc /\
  slot_result z idx_data dat_data j = None /\
  (forall d c, index_paths d = (Some idx_data, Some dat_data, c) ->
     dict_get (snd (read_sword_index z d)) j = None /\
     fst (read_sword_index z d) =
     [Reading c; FoundIndexEntries (num_entries idx_data);
      SuccessfullyRead (length (snd (read_sword_index z d)))]).
Proof.
  intros He H0.
  assert (Hd : decode_entry z dat_data e = None).
  { unfold decode_entry.
    destruct H0 as [H0 | H0]; rewrite H0; [reflexivity|].
    rewrite andb_false_r. reflexivity. }
  assert (Hs : slot_result z idx_data dat_data j = None)
    by (unfold slot_result; rewrite He; exact Hd).
  split; [unfold step; rewrite He, Hd; reflexivity|].
  split; [exact Hs|].
  intros d c Hp. split.
  - rewrite (read_sword_index_entries z d idx_data dat_data c j Hp), Hs.
    destruct (j <? _); reflexivity.
  - rewrite (read_sword_index_found z d idx_data dat_data c Hp). reflexivity.
Qed.

Lemma empty_slot_skipped_witness :
  idx_entry_at (pack_III 1 5 16 ++ pack_III 0 0 0) 1 = Some (mk_idx_entry 0 0 0) /\
  step inflate_stored (pack_III 1 5 16 ++ pack_III 0 0 0) hello_dat
       [(0, str "Hello")] 1 = Some [(0, str "Hello")].
Proof.
  assert (He : idx_entry_at (pack_III 1 5 16 ++ pack_III 0 0 0) 1 =
               Some (mk_idx_entry 0 0 0)) by reflexivity.
  split; [exact He|].
  exact (proj1 (empty_slot_skipped inflate_stored _ hello_dat [(0, str "Hello")] 1 _
                  He (or_introl eq_refl))).
Defined.

(** C7, as stated, has empty slots counted apart from failures.  A one-slot
    index whose slot is empty and one whose slot is corrupt give the same
    printed report and the same entries. *)
Lemma empty_slot_not_counted :
  let idxC := pack_III 0 0 0 in
  let idxD := pack_III 1 5 3 in
  count_outcome inflate_stored idxC hello_dat SkippedEmpty = 1 /\
  count_outcome inflate_stored idxD hello_dat FailedSlot = 1 /\
  read_sword_index inflate_stored (mk_data_dir (Some idxC) (Some hello_dat) None None) =
  read_sword_index inflate_stored (mk_data_dir (Some idxD) (Some hello_dat) None None).
Proof. vm_compute. repeat split; reflexivity. Qed.


(** C9, as stated, has invalid sequences replaced.  The byte [FF] followed by
    [A] decodes to [A] alone: the invalid byte leaves nothing (no U+FFFD)
    in the text. *)
Lemma utf8_invalid_dropped :
  utf8_decode_ignore [255; 65]%Z = [65]%Z /\
  decode_payload inflate_stored (zlib_store [xff; x41]) = Some [65%Z].
Proof. vm_compute. split; reflexivity. Qed.

(** ** The writer on the entries of [read_sword_index] *)

Lemma read_keys_below_sample (z : list byte -> option (list byte)) (d : data_dir) :
  Forall (fun p => fst p < SAMPLE_LIMIT) (snd (read_sword_index z d)).
Proof.
  destruct (index_paths d) as [[[idx_data|] [dat_data|]] c] eqn:Hp.
  - rewrite (read_sword_index_found z d idx_data dat_data c Hp). cbn [snd].
    eapply Forall_impl; [|apply collect_keys]. simpl. intros p Hk. lia.
  - unfold read_sword_index. rewrite Hp. constructor.
  - unfold read_sword_index. rewrite Hp. constructor.
  - unfold read_sword_index. rewrite Hp. constructor.
Qed.

Lemma emit_in_first_book (i : nat) (text : list Z) :
  i < 50 * 200 -> emit (i, text) = [spec_element (i, text)].
Proof.
  intros Hi. unfold emit.
  rewrite ref_of_in_catalog by (rewrite Nat.div_small by exact Hi; simpl; lia).
  reflexivity.
Qed.

Lemma flat_map_emit_small (l : entries) :
  Forall (fun p => fst p < SAMPLE_LIMIT) l ->
  flat_map emit l = map spec_element l.
Proof.
  induction l as [|[i t] l IH]; intros Hf; [reflexivity|].
  inversion Hf as [|? ? Hi Hrest]; subst. simpl in Hi.
  cbn [flat_map map]. rewrite emit_in_first_book by (unfold SAMPLE_LIMIT in Hi; lia).
  rewrite IH by exact Hrest. reflexivity.
Qed.

Lemma Forall_firstn_of {A} (P : A -> Prop) (n : nat) (l : list A) :
  Forall P l -> Forall P (firstn n l).
Proof.
  intros H. rewrite <- (firstn_skipn n l) in H. apply Forall_app in H. apply H.
Qed.

(** C4 (amended): on the entries of [read_sword_index] the writer emits the
    header, then one [verse] element for each of the first 50 entries, in
    order, each with [osisID="book.chapter.verse"] and the escaped text,
    then the footer; entries after the 50th are not written. *)
Theorem writer_first_fifty (z : list byte -> option (list byte)) (d : data_dir) :
  let ents := snd (read_sword_index z d) in
  write_osis ents = header ++ map spec_element (firstn WRITE_LIMIT ents) ++ footer /\
  length (write_osis ents) =
  length header + Nat.min WRITE_LIMIT (length ents) + length footer.
Proof.
  intros ents.
  assert (Hw : write_osis ents =
               header ++ map spec_element (firstn WRITE_LIMIT ents) ++ footer).
  { unfold write_osis. rewrite flat_map_emit_small; [reflexivity|].
    apply Forall_firstn_of. apply read_keys_below_sample. }
  split; [exact Hw|].
  rewrite Hw, !length_app, length_map, length_firstn. lia.
Qed.

(** C4, as stated, writes one element per record given to the writer.
    Given 51 entries it writes 50 elements: the header (3 writes), 50
    [verse] lines and the footer (2 writes). *)
Lemma writer_drops_after_fifty :
  let ents51 := map (fun i => (i, str "a")) (seq 0 51) in
  length ents51 = 51 /\
  length (write_osis ents51) = length header + 50 + length footer.
Proof. vm_compute. split; reflexivity. Qed.

(** ** Modules without an index *)

(** C5 (amended): once the configuration and the data directory are found,
    the module is always written and counted as a success.  Without any
    index file [read_sword_index] prints that the index was not found and
    returns no entries, and the module gets the same minimal document
    (header, root, footer, no element) as an index that yields no entry. *)
Theorem missing_index_placeholder (z : list byte -> option (list byte))
    (m : module_dir) (name p : string) (sects : list (string * string))
    (rest : list (list (string * string))) (d : data_dir) :
  conf_files m = ((name, p) :: sects) :: rest ->
  subdirs m (py_strip_dot_slash p) = Some d ->
  ((mhc_zdx d = None /\ mhc_idx d = None) \/ snd (read_sword_index z d) = []) ->
  convert_module_to_osis z m = (true, Some (header ++ footer)) /\
  (mhc_zdx d = None -> mhc_idx d = None ->
   read_sword_index z d = ([IndexNotFound], [])).
Proof.
  intros Hc Hs Hd.
  assert (He : snd (read_sword_index z d) = []).
  { destruct Hd as [[Hz Hi] | He]; [|exact He].
    rewrite (read_sword_index_no_index z d Hz Hi). reflexivity. }
  split.
  - unfold convert_module_to_osis. rewrite Hc, Hs, He. reflexivity.
  - apply read_sword_index_no_index.
Qed.

Definition empty_data_dir : data_dir := mk_data_dir None None None None.

Definition module_without_index : module_dir :=
  mk_module_dir [[("MHC", "./modules/comments/zcom/mhc/")]]%string
    (fun p => if String.eqb p "modules/comments/zcom/mhc" then Some empty_data_dir
              else None).

Lemma missing_index_placeholder_witness :
  convert_module_to_osis inflate_stored module_without_index =
  (true, Some (header ++ footer)).
Proof.
  apply (missing_index_placeholder inflate_stored module_without_index "MHC"
           "./modules/comments/zcom/mhc/" [] [] empty_data_dir);
    [reflexivity | reflexivity | left; split; reflexivity].
Defined.

(** C5, as stated, aborts a module without an index (as the source does for
    a missing configuration or data directory: [(False, no file)]).  The
    module above has no index file at all, yet it is written with the
    minimal document and reported as a success, exactly like a module whose
    index is empty. *)
Lemma missing_index_not_aborted :
  read_sword_index inflate_stored empty_data_dir = ([IndexNotFound], []) /\
  convert_module_to_osis inflate_stored module_without_index =
    (true, Some (header ++ footer)) /\
  convert_module_to_osis inflate_stored
    (mk_module_dir [[("MHC", "./modules/comments/zcom/mhc/")]]%string
       (fun p => if String.eqb p "modules/comments/zcom/mhc"
                 then Some (mk_data_dir (Some []) (Some []) None None) else None)) =
    (true, Some (header ++ footer)).
Proof. vm_compute. repeat split; reflexivity. Qed.

(** ** The UTF-8 decoder: arithmetic form of the code point formulas *)

Lemma lor_disjoint (a b n : Z) :
  (0 <= n)%Z -> (0 <= b < 2 ^ n)%Z -> Z.lor (a * 2 ^ n) b = (a * 2 ^ n + b)%Z.
Proof.
  intros Hn Hb.
  assert (Hl : Z.land (a * 2 ^ n) b = 0%Z).
  { apply Z.bits_inj'. intros i Hi. rewrite Z.land_spec, Z.bits_0.
    destruct (Z.lt_ge_cases i n) as [Hlt|Hge].
    - rewrite Z.mul_pow2_bits_low by exact Hlt. reflexivity.
    - rewrite <- (Z.mod_small b (2 ^ n)) by lia.
      rewrite Z.mod_pow2_bits_high by lia. apply andb_false_r. }
  rewrite <- Z.lxor_lor by exact Hl. rewrite Z.add_nocarry_lxor by exact Hl.
  reflexivity.
Qed.

Lemma cp2_arith (b0 b1 : Z) :
  cp2 b0 b1 = ((b0 mod 32) * 64 + b1 mod 64)%Z.
Proof.
  unfold cp2. change 31%Z with (Z.ones 5). change 63%Z with (Z.ones 6).
  rewrite !Z.land_ones by lia. rewrite Z.shiftl_mul_pow2 by lia.
  rewrite lor_disjoint by (try lia; apply Z.mod_pos_bound; lia).
  reflexivity.
Qed.

Lemma cp3_arith (b0 b1 b2 : Z) :
  cp3 b0 b1 b2 = ((b0 mod 16) * 4096 + (b1 mod 64) * 64 + b2 mod 64)%Z.
Proof.
  unfold cp3. change 15%Z with (Z.ones 4). change 63%Z with (Z.ones 6).
  rewrite !Z.land_ones by lia. rewrite !Z.shiftl_mul_pow2 by lia.
  assert (H1 := Z.mod_pos_bound b1 (2 ^ 6) ltac:(lia)).
  assert (H2 := Z.mod_pos_bound b2 (2 ^ 6) ltac:(lia)).
  rewrite (lor_disjoint _ (b1 mod 2 ^ 6 * 2 ^ 6) 12)
    by (first [lia | split; [lia|]; change (2 ^ 12)%Z with (2 ^ 6 * 2 ^ 6)%Z; nia]).
  replace (b0 mod 2 ^ 4 * 2 ^ 12 + b1 mod 2 ^ 6 * 2 ^ 6)%Z
    with ((b0 mod 2 ^ 4 * 2 ^ 6 + b1 mod 2 ^ 6) * 2 ^ 6)%Z by ring.
  rewrite lor_disjoint by lia.
  change (2 ^ 4)%Z with 16%Z. change (2 ^ 6)%Z with 64%Z. ring.
Qed.

Lemma cp4_arith (b0 b1 b2 b3 : Z) :
  cp4 b0 b1 b2 b3 =
  ((b0 mod 8) * 262144 + (b1 mod 64) * 4096 + (b2 mod 64) * 64 + b3 mod 64)%Z.
Proof.
  unfold cp4. change 7%Z with (Z.ones 3). change 63%Z with (Z.ones 6).
  rewrite !Z.land_ones by lia. rewrite !Z.shiftl_mul_pow2 by lia.
  assert (H1 := Z.mod_pos_bound b1 (2 ^ 6) ltac:(lia)).
  assert (H2 := Z.mod_pos_bound b2 (2 ^ 6) ltac:(lia)).
  assert (H3 := Z.mod_pos_bound b3 (2 ^ 6) ltac:(lia)).
  rewrite (lor_disjoint _ (b1 mod 2 ^ 6 * 2 ^ 12) 18)
    by (first [lia | split; [lia|]; change (2 ^ 18)%Z with (2 ^ 6 * 2 ^ 12)%Z;
        change (2 ^ 12)%Z with 4096%Z; nia]).
  rewrite (lor_disjoint (b2 mod 2 ^ 6) (b3 mod 2 ^ 6) 6) by lia.
  replace (b0 mod 2 ^ 3 * 2 ^ 18 + b1 mod 2 ^ 6 * 2 ^ 12)%Z
    with ((b0 mod 2 ^ 3 * 2 ^ 6 + b1 mod 2 ^ 6) * 2 ^ 12)%Z by ring.
  rewrite lor_disjoint
    by (first [lia | split; [lia|]; change (2 ^ 12)%Z with (2 ^ 6 * 2 ^ 6)%Z; nia]).
  change (2 ^ 3)%Z with 8%Z. change (2 ^ 6)%Z with 64%Z.
  change (2 ^ 12)%Z with 4096%Z. change (2 ^ 18)%Z with 262144%Z. ring.
Qed.

Ltac utf8_branches :=
  repeat match goal with
  | |- context [if ?c then _ else _] => let E := fresh "E" in destruct c eqn:E
  | |- context [match ?l with [] => _ | _ :: _ => _ end] => destruct l
  end;
  repeat match goal with
  | E : (_ <? _)%Z = true |- _ => apply Z.ltb_lt in E
  | E : (_ <? _)%Z = false |- _ => apply Z.ltb_ge in E
  | H : Forall _ (_ :: _) |- _ => inversion H; subst; clear H
  end.

(** Induction over the decoder: a property of every code point it can
    produce holds of all the code points of a decoded text. *)
Lemma utf8_decode_forall (P : Z -> Prop) (l : list Z) :
  (forall b, (0 <= b < 128)%Z -> P b) ->
  (forall b0 b1, (194 <= b0 < 224)%Z -> is_cont b1 = true -> P (cp2 b0 b1)) ->
  (forall b0 b1 b2, (224 <= b0 < 240)%Z -> second_ok3 b0 b1 = true ->
     is_cont b2 = true -> P (cp3 b0 b1 b2)) ->
  (forall b0 b1 b2 b3, (240 <= b0 < 245)%Z -> second_ok4 b0 b1 = true ->
     is_cont b2 = true -> is_cont b3 = true -> P (cp4 b0 b1 b2 b3)) ->
  Forall (fun b => 0 <= b)%Z l ->
  Forall P (utf8_decode_ignore l).
Proof.
  intros HA H2 H3 H4.
  assert (Hn : forall n l, length l <= n -> Forall (fun b => 0 <= b)%Z l ->
                           Forall P (utf8_decode_ignore l)).
  { induction n as [|n IHn]; intros l' Hl Hr.
    - destruct l'; [constructor | simpl in Hl; lia].
    - destruct l' as [|b0 t0]; [constructor|].
      cbn [utf8_decode_ignore]. utf8_branches.
      all: try constructor.
      all: first [ apply IHn; [simpl in *; lia | repeat constructor; assumption]
                 | apply HA; lia
                 | apply H2; [lia | assumption]
                 | apply H3; [lia | assumption | assumption]
                 | apply H4; [lia | assumption | assumption | assumption] ]. }
  intros Hr. exact (Hn (length l) l (le_n _) Hr).
Qed.

Lemma is_cont_true (b : Z) : is_cont b = true -> (128 <= b <= 191)%Z.
Proof. unfold is_cont. rewrite andb_true_iff, !Z.leb_le. lia. Qed.

Lemma second_ok3_true (b0 b1 : Z) :
  second_ok3 b0 b1 = true ->
  (128 <= b1 <= 191)%Z /\ ((b1 < 160)%Z -> b0 <> 224%Z) /\ ((160 <= b1)%Z -> b0 <> 237%Z).
Proof.
  unfold second_ok3. rewrite andb_true_iff. intros [Hc Hn].
  apply is_cont_true in Hc. split; [exact Hc|].
  destruct (Z.ltb_spec b1 160); rewrite negb_true_iff in Hn;
    [apply Z.eqb_neq in Hn | apply Z.eqb_neq in Hn]; split; intros; lia.
Qed.

Lemma second_ok4_true (b0 b1 : Z) :
  second_ok4 b0 b1 = true ->
  (128 <= b1 <= 191)%Z /\ ((b1 < 144)%Z -> b0 <> 240%Z) /\ ((144 <= b1)%Z -> b0 <> 244%Z).
Proof.
  unfold second_ok4. rewrite andb_true_iff. intros [Hc Hn].
  apply is_cont_true in Hc. split; [exact Hc|].
  destruct (Z.ltb_spec b1 144); rewrite negb_true_iff in Hn;
    [apply Z.eqb_neq in Hn | apply Z.eqb_neq in Hn]; split; intros; lia.
Qed.

Ltac decide_tests :=
  repeat match goal with
  | |- context [(?a <? ?b)%Z] =>
      first [ rewrite (proj2 (Z.ltb_lt a b)) by lia
            | rewrite (proj2 (Z.ltb_ge a b)) by lia ]
  | |- context [(?a <=? ?b)%Z] =>
      first [ rewrite (proj2 (Z.leb_le a b)) by lia
            | rewrite (proj2 (Z.leb_gt a b)) by lia ]
  | |- context [(?a =? ?b)%Z] =>
      first [ rewrite (proj2 (Z.eqb_eq a b)) by lia
            | rewrite (proj2 (Z.eqb_neq a b)) by lia ]
  end; cbv beta iota; cbn [andb negb].

Ltac split_tests :=
  decide_tests;
  repeat (match goal with
          | |- context [(?a <? ?b)%Z] => destruct (Z.ltb_spec a b)
          end; decide_tests).

Lemma utf8_encode_decode (c : Z) (rest : list Z) :
  is_scalar c -> utf8_decode_ignore (utf8_encode c ++ rest) = c :: utf8_decode_ignore rest.
Proof.
  intros [Hc Hs]. unfold utf8_encode.
  destruct (Z.ltb_spec c 128) as [H1|H1].
  { cbn [app utf8_decode_ignore]. rewrite (proj2 (Z.ltb_lt c 128)) by lia.
    reflexivity. }
  destruct (Z.ltb_spec c 2048) as [H2|H2].
  { cbn [app utf8_decode_ignore]. unfold is_cont.
    rewrite cp2_arith. Z.div_mod_to_equations. split_tests;
    f_equal; Z.div_mod_to_equations; lia. }
  destruct (Z.ltb_spec c 65536) as [H3|H3].
  { cbn [app utf8_decode_ignore]. unfold second_ok3, is_cont.
    rewrite cp3_arith. Z.div_mod_to_equations. split_tests;
    f_equal; Z.div_mod_to_equations; lia. }
  cbn [app utf8_decode_ignore]. unfold second_ok4, is_cont.
  rewrite cp4_arith. Z.div_mod_to_equations. split_tests;
  f_equal; Z.div_mod_to_equations; lia.
Qed.

Lemma utf8_encode_decode_all (cs : list Z) :
  Forall is_scalar cs -> utf8_decode_ignore (flat_map utf8_encode cs) = cs.
Proof.
  induction cs as [|c cs IH]; intros Hs; [reflexivity|].
  inversion Hs; subst. cbn [flat_map].
  rewrite utf8_encode_decode by assumption. f_equal. apply IH. assumption.
Qed.

Lemma utf8_encode_bytes (c : Z) :
  is_scalar c -> Forall (fun b => 0 <= b < 256)%Z (utf8_encode c).
Proof.
  intros [Hc _]. unfold utf8_encode.
  destruct (Z.ltb_spec c 128); [|destruct (Z.ltb_spec c 2048);
    [|destruct (Z.ltb_spec c 65536)]];
  repeat apply Forall_cons; try apply Forall_nil;
  Z.div_mod_to_equations; lia.
Qed.

Lemma byte_to_Z_of_Z (z : Z) : (0 <= z < 256)%Z -> byte_to_Z (byte_of_Z z) = z.
Proof.
  intros Hz.
  assert (H : forallb (fun n => Z.eqb (byte_to_Z (byte_of_Z (Z.of_nat n))) (Z.of_nat n))
                      (seq 0 256) = true) by (vm_compute; reflexivity).
  rewrite forallb_forall in H. specialize (H (Z.to_nat z)).
  rewrite in_seq, Z2Nat.id in H by lia. apply Z.eqb_eq, H. lia.
Qed.

Lemma byte_to_Z_range (b : byte) : (0 <= byte_to_Z b < 256)%Z.
Proof.
  destruct b; unfold byte_to_Z; cbn; lia.
Qed.

Lemma utf8_decode_length (n : nat) (l : list Z) :
  length l <= n -> length (utf8_decode_ignore l) <= length l.
Proof.
  revert l. induction n as [|n IHn]; intros l Hl.
  - destruct l; [simpl; lia | simpl in Hl; lia].
  - destruct l as [|b0 t0]; [simpl; lia|].
    cbn [utf8_decode_ignore]. utf8_branches.
    all: cbn [length].
    all: repeat match goal with
         | |- context [length (utf8_decode_ignore ?t)] =>
             lazymatch goal with
             | _ : length (utf8_decode_ignore t) <= length t |- _ => fail
             | _ => assert (length (utf8_decode_ignore t) <= length t)
                      by (apply IHn; simpl in *; lia)
             end
         end.
    all: simpl in *; lia.
Qed.

Lemma collect_sorted (z : list byte -> option (list byte)) (idx_data dat_data : list byte)
    (k s : nat) :
  StronglySorted lt (map fst (collect z idx_data dat_data (seq s k))).
Proof.
  revert s. induction k as [|k IH]; intros s; [constructor|].
  unfold collect in *. cbn [seq flat_map].
  destruct (slot_result z idx_data dat_data s); cbn [app map]; [|apply IH].
  constructor; [apply IH|].
  apply Forall_map. eapply Forall_impl; [|apply (collect_keys z idx_data dat_data k (S s))].
  simpl. intros; lia.
Qed.

Lemma collect_length (z : list byte -> option (list byte)) (idx_data dat_data : list byte)
    (k s : nat) :
  length (collect z idx_data dat_data (seq s k)) <= k.
Proof.
  revert s. induction k as [|k IH]; intros s; [simpl; lia|].
  unfold collect in *. cbn [seq flat_map].
  specialize (IH (S s)).
  destruct (slot_result z idx_data dat_data s); cbn [app length]; lia.
Qed.

Lemma collect_texts (z : list byte -> option (list byte)) (idx_data dat_data : list byte)
    (is : list nat) :
  Forall (fun p => length (snd p) <= 200) (collect z idx_data dat_data is).
Proof.
  induction is as [|i is IH]; [constructor|].
  unfold collect in *. cbn [flat_map]. apply Forall_app. split; [|exact IH].
  unfold slot_result, decode_entry, decode_payload.
  destruct (idx_entry_at idx_data i); [|constructor].
  destruct ((0 <? offset _)%N && (0 <? size _)%N); [|constructor].
  destruct (z _); [|constructor].
  constructor; [|constructor]. cbn [snd]. rewrite length_firstn. lia.
Qed.

(** ** Further properties of the decoder, the reader and the writer *)

(** Every code point [bytes.decode('utf-8', errors='ignore')] yields is a
    Unicode scalar value: at most [0x10FFFF] and never a surrogate. *)
Theorem utf8_decode_scalars (raw : list byte) :
  Forall is_scalar (utf8_decode_ignore (map byte_to_Z raw)).
Proof.
  apply utf8_decode_forall.
  - intros b Hb. unfold is_scalar. lia.
  - intros b0 b1 Hb0 Hc. apply is_cont_true in Hc.
    rewrite cp2_arith. unfold is_scalar. Z.div_mod_to_equations. lia.
  - intros b0 b1 b2 Hb0 H1 Hc. apply second_ok3_true in H1.
    apply is_cont_true in Hc.
    rewrite cp3_arith. unfold is_scalar. Z.div_mod_to_equations. lia.
  - intros b0 b1 b2 b3 Hb0 H1 Hc2 Hc3. apply second_ok4_true in H1.
    apply is_cont_true in Hc2. apply is_cont_true in Hc3.
    rewrite cp4_arith. unfold is_scalar. Z.div_mod_to_equations. lia.
  - apply Forall_map, Forall_forall. intros b _. apply byte_to_Z_range.
Qed.

(** Decoding never produces more code points than there are bytes. *)
Theorem utf8_decode_no_longer (l : list Z) :
  length (utf8_decode_ignore l) <= length l.
Proof. apply (utf8_decode_length (length l)). lia. Qed.

(** A payload that decompresses to the UTF-8 encoding of a text is stored
    as the first 200 code points of that text. *)
Theorem decode_payload_utf8_round_trip (z : list byte -> option (list byte))
    (comp : list byte) (cs : list Z) :
  Forall is_scalar cs ->
  z comp = Some (map byte_of_Z (flat_map utf8_encode cs)) ->
  decode_payload z comp = Some (firstn 200 cs).
Proof.
  intros Hs Hz. unfold decode_payload. rewrite Hz. f_equal. f_equal.
  rewrite map_map.
  rewrite (map_ext_in _ (fun b => b)).
  - rewrite map_id. apply utf8_encode_decode_all. exact Hs.
  - intros b Hb. apply in_flat_map in Hb as [c [Hc Hb]].
    apply byte_to_Z_of_Z.
    rewrite Forall_forall in Hs.
    pose proof (utf8_encode_bytes c (Hs c Hc)) as Hr.
    rewrite Forall_forall in Hr. exact (Hr b Hb).
Qed.

Lemma decode_payload_utf8_round_trip_witness :
  Forall is_scalar (str "Hello") /\
  inflate_stored (zlib_store (bytes_of_str "Hello")) =
    Some (map byte_of_Z (flat_map utf8_encode (str "Hello"))) /\
  decode_payload inflate_stored (zlib_store (bytes_of_str "Hello")) =
    Some (firstn 200 (str "Hello")).
Proof.
  assert (Hs : Forall is_scalar (str "Hello")).
  { cbn. repeat (apply Forall_cons; [unfold is_scalar; lia|]). apply Forall_nil. }
  assert (Hz : inflate_stored (zlib_store (bytes_of_str "Hello")) =
               Some (map byte_of_Z (flat_map utf8_encode (str "Hello"))))
    by (vm_compute; reflexivity).
  split; [exact Hs|]. split; [exact Hz|].
  exact (decode_payload_utf8_round_trip inflate_stored _ _ Hs Hz).
Defined.

(** The reader reports [Error reading index] exactly when the chosen index
    file exists but its paired data file does not; [struct.unpack] never
    raises on the sampled slots, which are all whole 12-byte records. *)
Theorem read_sword_index_error_iff (z : list byte -> option (list byte)) (d : data_dir) :
  In ErrorReading (fst (read_sword_index z d)) <->
  exists idx_data c, index_paths d = (Some idx_data, None, c).
Proof.
  destruct (index_paths d) as [[[i|] [t|]] c] eqn:Hp.
  - rewrite (read_sword_index_found z d i t c Hp). cbn [fst In].
    split; [intros H; intuition discriminate | intros (? & ? & H); discriminate].
  - unfold read_sword_index. rewrite Hp. cbn [fst In].
    split; [intros _; eauto | intros _; right; left; reflexivity].
  - unfold read_sword_index. rewrite Hp. cbn [fst In].
    split; [intros H; intuition discriminate | intros (? & ? & H); discriminate].
  - unfold read_sword_index. rewrite Hp. cbn [fst In].
    split; [intros H; intuition discriminate | intros (? & ? & H); discriminate].
Qed.

(** The returned dict has strictly increasing keys, at most 100 entries,
    and every stored text has at most 200 code points. *)
Theorem read_sword_index_entries_shape (z : list byte -> option (list byte)) (d : data_dir) :
  let ents := snd (read_sword_index z d) in
  StronglySorted lt (map fst ents) /\ length ents <= SAMPLE_LIMIT /\
  Forall (fun p => length (snd p) <= 200) ents.
Proof.
  intros ents. subst ents.
  destruct (index_paths d) as [[[i|] [t|]] c] eqn:Hp.
  - rewrite (read_sword_index_found z d i t c Hp). cbn [snd].
    split; [apply collect_sorted|]. split; [|apply collect_texts].
    pose proof (collect_length z i t (Nat.min (num_entries i) SAMPLE_LIMIT) 0). lia.
  - unfold read_sword_index. rewrite Hp. cbn [snd map length].
    split; [constructor | split; [unfold SAMPLE_LIMIT; lia | constructor]].
  - unfold read_sword_index. rewrite Hp. cbn [snd map length].
    split; [constructor | split; [unfold SAMPLE_LIMIT; lia | constructor]].
  - unfold read_sword_index. rewrite Hp. cbn [snd map length].
    split; [constructor | split; [unfold SAMPLE_LIMIT; lia | constructor]].
Qed.

Fixpoint nodupb (l : list string) : bool :=
  match l with
  | [] => true
  | x :: r => negb (existsb (String.eqb x) r) && nodupb r
  end.

Lemma nodupb_NoDup (l : list string) : nodupb l = true -> NoDup l.
Proof.
  induction l as [|x r IH]; intros H; [constructor|].
  cbn [nodupb] in H. apply andb_true_iff in H as [H1 H2].
  constructor; [|apply IH; exact H2].
  intros Hin. rewrite negb_true_iff in H1.
  assert (He : existsb (String.eqb x) r = true).
  { apply existsb_exists. exists x. split; [exact Hin | apply String.eqb_refl]. }
  congruence.
Qed.

Lemma split_on_no_sep (sep : Z) (a : list Z) :
  ~ In sep a -> split_on sep a = [a].
Proof.
  induction a as [|x a IH]; intros Hn; [reflexivity|].
  cbn [split_on]. destruct (Z.eqb_spec x sep) as [->|Hx].
  - exfalso. apply Hn. left. reflexivity.
  - rewrite IH; [reflexivity|]. intros H. apply Hn. right. exact H.
Qed.

Lemma split_on_app (sep : Z) (a r : list Z) :
  ~ In sep a -> split_on sep (a ++ sep :: r) = a :: split_on sep r.
Proof.
  induction a as [|x a IH]; intros Hn.
  - cbn [app split_on]. rewrite Z.eqb_refl. reflexivity.
  - cbn [app split_on]. destruct (Z.eqb_spec x sep) as [->|Hx].
    + exfalso. apply Hn. left. reflexivity.
    + rewrite IH; [reflexivity|]. intros H. apply Hn. right. exact H.
Qed.

Lemma digits_aux_digits (f n : nat) (acc : list Z) :
  Forall (fun d => 48 <= d <= 57)%Z acc ->
  Forall (fun d => 48 <= d <= 57)%Z (digits_aux f n acc).
Proof.
  revert n acc. induction f as [|f IH]; intros n acc Hacc; [exact Hacc|].
  cbn [digits_aux].
  assert (Hd : (48 <= 48 + Z.of_nat (n mod 10) <= 57)%Z).
  { pose proof (Nat.mod_upper_bound n 10 ltac:(lia)). lia. }
  destruct (n <? 10); [constructor; assumption|].
  apply IH. constructor; assumption.
Qed.

Lemma digits_aux_value (f n : nat) (acc : list Z) :
  n < f -> fold_left digit_step (digits_aux f n acc) 0 = fold_left digit_step acc n.
Proof.
  revert n acc. induction f as [|f IH]; intros n acc Hn; [lia|].
  cbn [digits_aux].
  assert (Hm : Z.to_nat (48 + Z.of_nat (n mod 10) - 48) = n mod 10).
  { replace (48 + Z.of_nat (n mod 10) - 48)%Z with (Z.of_nat (n mod 10)) by lia.
    apply Nat2Z.id. }
  destruct (Nat.ltb_spec n 10) as [Hlt|Hge].
  - cbn [fold_left]. unfold digit_step at 2. rewrite Hm, Nat.mod_small by lia.
    reflexivity.
  - rewrite IH.
    + cbn [fold_left]. unfold digit_step at 2. rewrite Hm. f_equal.
      pose proof (Nat.div_mod_eq n 10). lia.
    + pose proof (Nat.div_lt n 10 ltac:(lia) ltac:(lia)). lia.
Qed.

Lemma digits_aux_nonempty (f n : nat) (acc : list Z) :
  acc <> [] -> digits_aux f n acc <> [].
Proof.
  revert n acc. induction f as [|f IH]; intros n acc Hacc; [exact Hacc|].
  cbn [digits_aux]. destruct (n <? 10); [discriminate|].
  apply IH. discriminate.
Qed.

Lemma parse_nat_py_str (n : nat) : parse_nat (py_str_nat n) = Some n.
Proof.
  assert (Hne : py_str_nat n <> []).
  { unfold py_str_nat. cbn [digits_aux].
    destruct (n <? 10); [discriminate|]. apply digits_aux_nonempty. discriminate. }
  assert (Hd : forallb is_digit (py_str_nat n) = true).
  { apply forallb_forall. intros x Hx.
    assert (Hf := digits_aux_digits (S n) n [] (Forall_nil _)).
    rewrite Forall_forall in Hf. specialize (Hf x Hx).
    unfold is_digit. apply andb_true_iff. rewrite !Z.leb_le. lia. }
  unfold parse_nat. destruct (py_str_nat n) as [|x r] eqn:E; [contradiction|].
  rewrite Hd. f_equal. rewrite <- E. unfold py_str_nat. rewrite digits_aux_value by lia.
  reflexivity.
Qed.

Lemma py_str_nat_no_dot (n : nat) : ~ In 46%Z (py_str_nat n).
Proof.
  intros H. assert (Hf := digits_aux_digits (S n) n [] (Forall_nil _)).
  rewrite Forall_forall in Hf. specialize (Hf _ H). lia.
Qed.

Lemma books_no_dot (b : string) : In b KJV_BOOKS -> ~ In 46%Z (str b).
Proof.
  intros Hb Hd.
  assert (H : forallb (fun b => negb (existsb (Z.eqb 46) (str b))) KJV_BOOKS = true)
    by (vm_compute; reflexivity).
  rewrite forallb_forall in H. specialize (H b Hb).
  rewrite negb_true_iff in H.
  assert (He : existsb (Z.eqb 46) (str b) = true).
  { apply existsb_exists. exists 46%Z. split; [exact Hd | apply Z.eqb_refl]. }
  congruence.
Qed.

Lemma ref_of_book (i : nat) (b : string) (c v : nat) :
  ref_of i = Some (b, c, v) -> In b KJV_BOOKS.
Proof.
  intros Hs. unfold ref_of in Hs. cbv zeta in Hs.
  destruct (Nat.ltb_spec (i / (50 * MAX_VERSES_PER_CHAPTER)) (length KJV_BOOKS)) as [Hlt|Hge];
    [|discriminate Hs].
  apply (f_equal (fun o => match o with Some (b', _, _) => b' | None => b end)) in Hs.
  cbv beta iota in Hs. rewrite <- Hs. apply nth_In. exact Hlt.
Qed.

Lemma emit_length (i : nat) (t : list Z) :
  length (emit (i, t)) =
  if i <? length KJV_BOOKS * (50 * MAX_VERSES_PER_CHAPTER) then 1 else 0.
Proof.
  unfold emit, ref_of, MAX_VERSES_PER_CHAPTER. change (length KJV_BOOKS) with 66.
  pose proof (Nat.div_mod_eq i (50 * 200)) as Hq.
  pose proof (Nat.mod_upper_bound i (50 * 200) ltac:(lia)) as Hr.
  destruct (Nat.ltb_spec (i / (50 * 200)) 66), (Nat.ltb_spec i (66 * (50 * 200)));
    try reflexivity; lia.
Qed.

Lemma flat_map_emit_length (l : entries) :
  length (flat_map emit l) =
  length (filter (fun p => fst p <? length KJV_BOOKS * (50 * MAX_VERSES_PER_CHAPTER)) l).
Proof.
  induction l as [|[i t] l IH]; [reflexivity|].
  cbn [flat_map filter fst]. rewrite length_app, emit_length, IH.
  destruct (_ <? _); reflexivity.
Qed.

(** The writer never emits [<] or [>] from a stored text: both are always
    replaced by their entities. *)
Theorem escape_text_no_angle (text : list Z) :
  ~ In LT (escape_text text) /\ ~ In GT (escape_text text).
Proof.
  induction text as [|x s [IHl IHg]]; [split; intros []|].
  rewrite escape_text_cons, !in_app_iff. unfold escape_char.
  destruct (Z.eqb_spec x AMP); [|destruct (Z.eqb_spec x LT);
    [|destruct (Z.eqb_spec x GT)]];
  [change (str "&amp;") with [38; 97; 109; 112; 59]%Z
  | change (str "&lt;") with [38; 108; 116; 59]%Z
  | change (str "&gt;") with [38; 103; 116; 59]%Z | ];
  unfold LT, GT, AMP in *; cbn [In] in *; split; intros [H|H]; try tauto; lia.
Qed.

(** Every osisID the writer emits reads back, field by field, as the book,
    chapter and verse it was built from. *)
Theorem osis_id_round_trip (i : nat) (book : string) (chapter verse : nat) :
  ref_of i = Some (book, chapter, verse) ->
  parse_osis_id (osis_id book chapter verse) = Some (str book, chapter, verse).
Proof.
  intros Hr. apply ref_of_book, books_no_dot in Hr.
  unfold osis_id, parse_osis_id. change (str ".") with [46%Z]. cbn [app].
  rewrite split_on_app by exact Hr.
  rewrite split_on_app by apply py_str_nat_no_dot.
  rewrite split_on_no_sep by apply py_str_nat_no_dot.
  rewrite !parse_nat_py_str. reflexivity.
Qed.

Lemma osis_id_round_trip_witness :
  ref_of 7 = Some ("Gen"%string, 1, 8) /\
  parse_osis_id (osis_id "Gen" 1 8) = Some (str "Gen", 1, 8).
Proof.
  assert (H : ref_of 7 = Some ("Gen"%string, 1, 8)) by reflexivity.
  split; [exact H|]. exact (osis_id_round_trip 7 "Gen" 1 8 H).
Defined.

(** The slot-to-reference guess never maps two slots to the same verse. *)
Theorem ref_of_injective (i j : nat) (r : string * nat * nat) :
  ref_of i = Some r -> ref_of j = Some r -> i = j.
Proof.
  assert (Hnd : NoDup KJV_BOOKS) by (apply nodupb_NoDup; vm_compute; reflexivity).
  intros H1 H2. unfold ref_of, MAX_VERSES_PER_CHAPTER in H1, H2.
  cbv zeta in H1, H2.
  destruct (Nat.ltb_spec (i / (50 * 200)) (length KJV_BOOKS)) as [Hi|]; [|discriminate H1].
  destruct (Nat.ltb_spec (j / (50 * 200)) (length KJV_BOOKS)) as [Hj|]; [|discriminate H2].
  rewrite <- H2 in H1.
  pose proof (f_equal (fun o => match o with Some (b', _, _) => b' | None => ""%string end) H1)
    as Hb.
  pose proof (f_equal (fun o => match o with Some (_, c', _) => c' | None => 0 end) H1) as Hc.
  pose proof (f_equal (fun o => match o with Some (_, _, v') => v' | None => 0 end) H1) as Hv.
  cbv beta iota in Hb, Hc, Hv. clear H1 H2.
  apply (proj1 (NoDup_nth KJV_BOOKS ""%string) Hnd _ _ Hi Hj) in Hb.
  pose proof (Nat.div_mod_eq i (50 * 200)). pose proof (Nat.div_mod_eq j (50 * 200)).
  pose proof (Nat.div_mod_eq (i mod (50 * 200)) 200).
  pose proof (Nat.div_mod_eq (j mod (50 * 200)) 200).
  rewrite (verse_mod_nested i), (verse_mod_nested j) in Hv.
  lia.
Qed.

Lemma ref_of_injective_witness :
  ref_of 10207 = Some ("Exod"%string, 2, 8) /\
  ref_of 10207 = Some ("Exod"%string, 2, 8) /\ 10207 = 10207.
Proof.
  assert (H : ref_of 10207 = Some ("Exod"%string, 2, 8)) by reflexivity.
  split; [exact H|]. split; [exact H|].
  exact (ref_of_injective 10207 10207 _ H H).
Defined.

(** For any dict, the file holds the three header lines, one verse line for
    each of the first 50 entries whose key falls in the 66-book range, and
    the two footer lines; entries with larger keys are dropped silently. *)
Theorem write_osis_lines (ents : entries) :
  length (write_osis ents) =
  length header +
  length (filter (fun p => fst p <? length KJV_BOOKS * (50 * MAX_VERSES_PER_CHAPTER))
                 (firstn WRITE_LIMIT ents)) +
  length footer.
Proof.
  unfold write_osis. rewrite !length_app, flat_map_emit_length. lia.
Qed.

(** A written file is the header, at most 50 verse lines, and the footer. *)
Theorem convert_output_shape (z : list byte -> option (list byte)) (m : module_dir)
    (out : list (list Z)) :
  snd (convert_module_to_osis z m) = Some out ->
  exists body, out = header ++ body ++ footer /\ length body <= WRITE_LIMIT.
Proof.
  unfold convert_module_to_osis.
  destruct (conf_files m) as [|[|[name dp] secs] confs]; cbn [snd]; try discriminate.
  destruct (subdirs m (py_strip_dot_slash dp)) as [d|]; cbn [snd]; [|discriminate].
  intros H. injection H as <-. unfold write_osis.
  eexists. split; [reflexivity|].
  rewrite flat_map_emit_length.
  pose proof (filter_length_le (fun p : nat * list Z =>
      fst p <? length KJV_BOOKS * (50 * MAX_VERSES_PER_CHAPTER))
      (firstn WRITE_LIMIT (snd (read_sword_index z d)))).
  rewrite length_firstn in *. lia.
Qed.

Definition sample_module : module_dir :=
  mk_module_dir [[("MHC", "./modules/comments/zcom/mhc/")]]%string
    (fun p => if String.eqb p "modules/comments/zcom/mhc" then Some sample_dir
              else None).

Lemma convert_output_shape_witness :
  snd (convert_module_to_osis inflate_stored sample_module) =
    Some (write_osis (snd (read_sword_index inflate_stored sample_dir))) /\
  exists body, write_osis (snd (read_sword_index inflate_stored sample_dir)) =
    header ++ body ++ footer /\ length body <= WRITE_LIMIT.
Proof.
  assert (H : snd (convert_module_to_osis inflate_stored sample_module) =
              Some (write_osis (snd (read_sword_index inflate_stored sample_dir))))
    by reflexivity.
  split; [exact H|].
  exact (convert_output_shape inflate_stored sample_module _ H).
Defined.

(** The first character of a list, when there is one, is not stripped. *)
Definition head_kept (l : list ascii) : Prop :=
  match l with c :: _ => strip_char c = false | [] => True end.

Lemma lstrip_head (l : list ascii) : head_kept (lstrip l).
Proof.
  induction l as [|c l IH]; [exact I|]. cbn [lstrip].
  destruct (strip_char c) eqn:E; [exact IH | exact E].
Qed.

Lemma lstrip_suffix (l : list ascii) : exists p, l = p ++ lstrip l.
Proof.
  induction l as [|c l [p Hp]]; [exists []; reflexivity|]. cbn [lstrip].
  destruct (strip_char c).
  - exists (c :: p). cbn [app]. rewrite <- Hp. reflexivity.
  - exists []. reflexivity.
Qed.

Lemma lstrip_fix (l : list ascii) : head_kept l -> lstrip l = l.
Proof.
  destruct l as [|c l]; [reflexivity|]. cbn [head_kept lstrip]. intros H. rewrite H.
  reflexivity.
Qed.

(** [DataPath.strip('./')] leaves neither [.] nor [/] at either end of the
    path, so stripping the result again changes nothing. *)
Theorem py_strip_dot_slash_stable (s : string) :
  let r := list_ascii_of_string (py_strip_dot_slash s) in
  head_kept r /\ head_kept (rev r) /\
  py_strip_dot_slash (py_strip_dot_slash s) = py_strip_dot_slash s.
Proof.
  intros r. subst r. unfold py_strip_dot_slash.
  rewrite !list_ascii_of_string_of_list_ascii.
  set (m := lstrip (list_ascii_of_string s)).
  assert (Hm : head_kept m) by apply lstrip_head.
  assert (Hr : head_kept (lstrip (rev m))) by apply lstrip_head.
  assert (Hpre : head_kept (rev (lstrip (rev m)))).
  { destruct (lstrip_suffix (rev m)) as [p Hp].
    assert (Em : m = rev (lstrip (rev m)) ++ rev p).
    { rewrite <- rev_app_distr, <- Hp, rev_involutive. reflexivity. }
    rewrite Em in Hm.
    destruct (rev (lstrip (rev m))) as [|c t]; [exact I | exact Hm]. }
  split; [exact Hpre|]. split; [rewrite rev_involutive; exact Hr|].
  rewrite (lstrip_fix _ Hpre), rev_involutive, (lstrip_fix _ Hr). reflexivity.
Qed.

(** A slot's text depends only on the data-file bytes before
    [offset + comp_size]: [f.seek(offset)] followed by [f.read(comp_size)]
    never looks further. *)
Theorem decode_entry_window (z : list byte -> option (list byte))
    (dat dat' : list byte) (e : idx_entry) :
  firstn (N.to_nat (offset e) + N.to_nat (comp_size e)) dat =
  firstn (N.to_nat (offset e) + N.to_nat (comp_size e)) dat' ->
  decode_entry z dat e = decode_entry z dat' e.
Proof.
  intros H. unfold decode_entry, dat_read. rewrite !firstn_skipn_comm, H. reflexivity.
Qed.

Lemma decode_entry_window_witness :
  firstn (N.to_nat 1 + N.to_nat 16) hello_dat =
  firstn (N.to_nat 1 + N.to_nat 16) (hello_dat ++ [x01]) /\
  decode_entry inflate_stored hello_dat (mk_idx_entry 1 5 16) =
  decode_entry inflate_stored (hello_dat ++ [x01]) (mk_idx_entry 1 5 16).
Proof.
  assert (H : firstn (N.to_nat 1 + N.to_nat 16) hello_dat =
              firstn (N.to_nat 1 + N.to_nat 16) (hello_dat ++ [x01]))
    by (vm_compute; reflexivity).
  split; [exact H|].
  exact (decode_entry_window inflate_stored hello_dat (hello_dat ++ [x01])
           (mk_idx_entry 1 5 16) H).
Defined.

Lemma unpack_III_length (bs : list byte) : unpack_III bs <> None -> length bs = 12.
Proof.
  intros H.
  do 12 (destruct bs as [|? bs]; [exfalso; apply H; reflexivity|]).
  destruct bs; [reflexivity | exfalso; apply H; reflexivity].
Qed.

(** [struct.unpack('<III', ...)] succeeds on the [i]-th 12-byte slice of the
    index exactly when [i < len(idx_data) // 12]: a trailing partial record
    is never decoded. *)
Theorem idx_entry_at_some_iff (idx_data : list byte) (i : nat) :
  idx_entry_at idx_data i <> None <-> i < num_entries idx_data.
Proof.
  split.
  - intros H. apply unpack_III_length in H.
    unfold py_slice, entry_size in H. rewrite length_firstn, length_skipn in H.
    unfold num_entries, entry_size.
    apply Nat.div_le_lower_bound; lia.
  - intros H. rewrite idx_entry_at_complete by exact H. discriminate.
Qed.

(** ** Decoding around ill-formed sequences *)

Lemma scalar_cp2 (b0 b1 : Z) :
  (194 <= b0 < 224)%Z -> is_cont b1 = true -> is_scalar (cp2 b0 b1).
Proof.
  intros Hb0 Hc. apply is_cont_true in Hc.
  rewrite cp2_arith. unfold is_scalar. Z.div_mod_to_equations. lia.
Qed.

Lemma scalar_cp3 (b0 b1 b2 : Z) :
  (224 <= b0 < 240)%Z -> second_ok3 b0 b1 = true -> is_cont b2 = true ->
  is_scalar (cp3 b0 b1 b2).
Proof.
  intros Hb0 H1 Hc. apply second_ok3_true in H1. apply is_cont_true in Hc.
  rewrite cp3_arith. unfold is_scalar. Z.div_mod_to_equations. lia.
Qed.

Lemma scalar_cp4 (b0 b1 b2 b3 : Z) :
  (240 <= b0 < 245)%Z -> second_ok4 b0 b1 = true -> is_cont b2 = true ->
  is_cont b3 = true -> is_scalar (cp4 b0 b1 b2 b3).
Proof.
  intros Hb0 H1 Hc2 Hc3. apply second_ok4_true in H1.
  apply is_cont_true in Hc2. apply is_cont_true in Hc3.
  rewrite cp4_arith. unfold is_scalar. Z.div_mod_to_equations. lia.
Qed.

Lemma encode_cp2 (b0 b1 : Z) :
  (194 <= b0 < 224)%Z -> is_cont b1 = true -> utf8_encode (cp2 b0 b1) = [b0; b1].
Proof.
  intros Hb0 Hc. apply is_cont_true in Hc.
  rewrite cp2_arith. unfold utf8_encode. Z.div_mod_to_equations.
  split_tests; f_equal; try f_equal; Z.div_mod_to_equations; lia.
Qed.

Lemma encode_cp3 (b0 b1 b2 : Z) :
  (224 <= b0 < 240)%Z -> second_ok3 b0 b1 = true -> is_cont b2 = true ->
  utf8_encode (cp3 b0 b1 b2) = [b0; b1; b2].
Proof.
  intros Hb0 H1 Hc. apply second_ok3_true in H1. apply is_cont_true in Hc.
  rewrite cp3_arith. unfold utf8_encode. Z.div_mod_to_equations.
  split_tests; repeat f_equal; Z.div_mod_to_equations; lia.
Qed.

Lemma encode_cp4 (b0 b1 b2 b3 : Z) :
  (240 <= b0 < 245)%Z -> second_ok4 b0 b1 = true -> is_cont b2 = true ->
  is_cont b3 = true -> utf8_encode (cp4 b0 b1 b2 b3) = [b0; b1; b2; b3].
Proof.
  intros Hb0 H1 Hc2 Hc3. apply second_ok4_true in H1.
  apply is_cont_true in Hc2. apply is_cont_true in Hc3.
  rewrite cp4_arith. unfold utf8_encode. Z.div_mod_to_equations.
  split_tests; repeat f_equal; Z.div_mod_to_equations; lia.
Qed.

Lemma enc3_facts (c : Z) :
  is_scalar c -> (2048 <= c < 65536)%Z ->
  (224 <= 224 + c / 4096 < 240)%Z /\
  second_ok3 (224 + c / 4096) (128 + (c / 64) mod 64) = true /\
  is_cont (128 + c mod 64) = true.
Proof.
  intros [Hc Hs] Hr. unfold second_ok3, is_cont.
  Z.div_mod_to_equations. split; [lia|]. split; split_tests; reflexivity.
Qed.

Lemma enc4_facts (c : Z) :
  is_scalar c -> (65536 <= c)%Z ->
  (240 <= 240 + c / 262144 < 245)%Z /\
  second_ok4 (240 + c / 262144) (128 + (c / 4096) mod 64) = true /\
  is_cont (128 + (c / 64) mod 64) = true /\ is_cont (128 + c mod 64) = true.
Proof.
  intros [Hc Hs] Hr. unfold second_ok4, is_cont.
  Z.div_mod_to_equations. split; [lia|]. split; [|split]; split_tests; reflexivity.
Qed.

Lemma dec_invalid_start (b0 : Z) (rest : list Z) :
  ((128 <= b0 < 194) \/ 245 <= b0)%Z ->
  utf8_decode_ignore (b0 :: rest) = utf8_decode_ignore rest.
Proof.
  intros Hb. cbn [utf8_decode_ignore].
  destruct Hb as [Hb | Hb].
  - rewrite (proj2 (Z.ltb_ge b0 128)) by lia.
    rewrite (proj2 (Z.ltb_lt b0 194)) by lia. reflexivity.
  - rewrite (proj2 (Z.ltb_ge b0 128)) by lia.
    rewrite (proj2 (Z.ltb_ge b0 194)) by lia.
    rewrite (proj2 (Z.ltb_ge b0 224)) by lia.
    rewrite (proj2 (Z.ltb_ge b0 240)) by lia.
    rewrite (proj2 (Z.ltb_ge b0 245)) by lia. reflexivity.
Qed.

Lemma dec_lead_end (b0 : Z) : (194 <= b0 < 245)%Z -> utf8_decode_ignore [b0] = [].
Proof. intros Hb. cbn [utf8_decode_ignore]. decide_tests.
  destruct (b0 <? 224)%Z, (b0 <? 240)%Z; reflexivity. Qed.

Lemma dec_lead2 (b0 b1 : Z) (rest : list Z) :
  (194 <= b0 < 224)%Z ->
  utf8_decode_ignore (b0 :: b1 :: rest) =
  if is_cont b1 then cp2 b0 b1 :: utf8_decode_ignore rest
  else utf8_decode_ignore (b1 :: rest).
Proof.
  intros Hb. cbn [utf8_decode_ignore]. decide_tests. reflexivity.
Qed.

Lemma dec_lead3_bad (b0 b1 : Z) (rest : list Z) :
  (224 <= b0 < 240)%Z -> second_ok3 b0 b1 = false ->
  utf8_decode_ignore (b0 :: b1 :: rest) = utf8_decode_ignore (b1 :: rest).
Proof.
  intros Hb H1. cbn [utf8_decode_ignore]. decide_tests. rewrite H1. reflexivity.
Qed.

Lemma dec_lead4_bad (b0 b1 : Z) (rest : list Z) :
  (240 <= b0 < 245)%Z -> second_ok4 b0 b1 = false ->
  utf8_decode_ignore (b0 :: b1 :: rest) = utf8_decode_ignore (b1 :: rest).
Proof.
  intros Hb H1. cbn [utf8_decode_ignore]. decide_tests. rewrite H1. reflexivity.
Qed.

Lemma dec_lead3 (b0 b1 : Z) (rest : list Z) :
  (224 <= b0 < 240)%Z -> second_ok3 b0 b1 = true ->
  utf8_decode_ignore (b0 :: b1 :: rest) =
  match rest with
  | [] => []
  | b2 :: t2 =>
      if is_cont b2 then cp3 b0 b1 b2 :: utf8_decode_ignore t2
      else utf8_decode_ignore rest
  end.
Proof.
  intros Hb H1. destruct rest; cbn [utf8_decode_ignore]; decide_tests; rewrite H1;
    reflexivity.
Qed.

Lemma dec_lead4 (b0 b1 : Z) (rest : list Z) :
  (240 <= b0 < 245)%Z -> second_ok4 b0 b1 = true ->
  utf8_decode_ignore (b0 :: b1 :: rest) =
  match rest with
  | [] => []
  | b2 :: t2 =>
      if is_cont b2 then
        match t2 with
        | [] => []
        | b3 :: t3 =>
            if is_cont b3 then cp4 b0 b1 b2 b3 :: utf8_decode_ignore t3
            else utf8_decode_ignore t2
        end
      else utf8_decode_ignore rest
  end.
Proof.
  intros Hb H1. destruct rest; cbn [utf8_decode_ignore]; decide_tests; rewrite H1;
    reflexivity.
Qed.

Lemma cons_inj {A} (x y : A) (l l' : list A) : x :: l = y :: l' -> x = y /\ l = l'.
Proof. intros H. injection H as -> ->. split; reflexivity. Qed.

Lemma utf8_decode_drops_subpart (bs rest : list Z) :
  invalid_subpart bs rest -> utf8_decode_ignore (bs ++ rest) = utf8_decode_ignore rest.
Proof.
  intros (Hne & Hbytes & Hnc & Hpre & Hmax).
  destruct bs as [|b0 bs']; [contradiction|].
  inversion Hbytes as [|? ? Hb0 Hbytes']; subst.
  destruct bs' as [|b1 bs''].
  - (* a single byte *)
    cbn [app]. clear Hpre.
    destruct (Z.ltb_spec b0 128).
    { exfalso. apply (Hnc b0); [unfold is_scalar; lia|].
      unfold utf8_encode. rewrite (proj2 (Z.ltb_lt b0 128)) by lia. reflexivity. }
    destruct (Z.ltb_spec b0 194); [apply dec_invalid_start; lia|].
    destruct (Z.leb_spec 245 b0); [apply dec_invalid_start; lia|].
    destruct rest as [|b r]; [apply dec_lead_end; lia|].
    specialize (Hmax b r eq_refl). cbn [app] in Hmax.
    destruct (Z.ltb_spec b0 224).
    + rewrite dec_lead2 by lia. destruct (is_cont b) eqn:E; [|reflexivity].
      exfalso. apply Hmax. exists (cp2 b0 b), [].
      split; [apply scalar_cp2; [lia | exact E]|].
      rewrite encode_cp2 by (lia || exact E). reflexivity.
    + destruct (Z.ltb_spec b0 240).
      * destruct (second_ok3 b0 b) eqn:E; [|apply dec_lead3_bad; [lia | exact E]].
        exfalso. apply Hmax. exists (cp3 b0 b 128), [128%Z].
        split; [apply scalar_cp3; [lia | exact E | reflexivity]|].
        rewrite encode_cp3 by (lia || exact E || reflexivity). reflexivity.
      * destruct (second_ok4 b0 b) eqn:E; [|apply dec_lead4_bad; [lia | exact E]].
        exfalso. apply Hmax. exists (cp4 b0 b 128 128), [128%Z; 128%Z].
        split; [apply scalar_cp4; [lia | exact E | reflexivity | reflexivity]|].
        rewrite encode_cp4 by (lia || exact E || reflexivity). reflexivity.
  - (* a prefix of an encoding, of length at least 2 *)
    destruct Hpre as [Hl | (c & r & Hc & Henc)]; [cbn in Hl; lia|].
    assert (Hfull : r = [] -> False).
    { intros ->. rewrite app_nil_r in Henc. exact (Hnc c Hc Henc). }
    pose proof Hc as [Hcr _].
    unfold utf8_encode in Henc.
    destruct (Z.ltb_spec c 128) as [Hc1|Hc1]; [discriminate Henc|].
    destruct (Z.ltb_spec c 2048) as [Hc2|Hc2].
    { apply cons_inj in Henc as [E0 Henc]. apply cons_inj in Henc as [E1 Et].
      destruct bs''; [|discriminate Et]. exfalso. apply Hfull. exact (eq_sym Et). }
    destruct (Z.ltb_spec c 65536) as [Hc3|Hc3].
    + destruct (enc3_facts c Hc ltac:(lia)) as (F0 & F1 & F2).
      apply cons_inj in Henc as [E0 Henc]. apply cons_inj in Henc as [E1 Et]. subst b0 b1.
      destruct bs'' as [|x bs3].
      * cbn [app]. rewrite dec_lead3 by assumption.
        destruct rest as [|b r']; [reflexivity|].
        destruct (is_cont b) eqn:E; [|reflexivity].
        exfalso. apply (Hmax b r' eq_refl).
        exists (cp3 (224 + c / 4096) (128 + (c / 64) mod 64) b), [].
        split; [apply scalar_cp3; assumption|].
        rewrite encode_cp3 by assumption. reflexivity.
      * apply cons_inj in Et as [Ex Et']. destruct bs3; [|discriminate Et'].
        exfalso. apply Hfull. exact (eq_sym Et').
    + destruct (enc4_facts c Hc ltac:(lia)) as (F0 & F1 & F2 & F3).
      apply cons_inj in Henc as [E0 Henc]. apply cons_inj in Henc as [E1 Et]. subst b0 b1.
      destruct bs'' as [|x [|y bs3]].
      * cbn [app]. rewrite dec_lead4 by assumption.
        destruct rest as [|b r']; [reflexivity|].
        destruct (is_cont b) eqn:E; [|reflexivity].
        exfalso. apply (Hmax b r' eq_refl).
        exists (cp4 (240 + c / 262144) (128 + (c / 4096) mod 64) b 128), [128%Z].
        split; [apply scalar_cp4; [assumption | assumption | exact E | reflexivity]|].
        rewrite encode_cp4 by (assumption || exact E || reflexivity). reflexivity.
      * apply cons_inj in Et as [Ex Et']. subst x. cbn [app]. rewrite dec_lead4 by assumption.
        rewrite F2.
        destruct rest as [|b r']; [reflexivity|].
        destruct (is_cont b) eqn:E; [|reflexivity].
        exfalso. apply (Hmax b r' eq_refl).
        exists (cp4 (240 + c / 262144) (128 + (c / 4096) mod 64)
                    (128 + (c / 64) mod 64) b), [].
        split; [apply scalar_cp4; assumption|].
        rewrite encode_cp4 by assumption. reflexivity.
      * apply cons_inj in Et as [Ex Et]. apply cons_inj in Et as [Ey Et']. destruct bs3; [|discriminate Et'].
        exfalso. apply Hfull. exact (eq_sym Et').
Qed.

Lemma enc_tail_cont (c : Z) :
  is_scalar c -> Forall (fun b => 128 <= b <= 191)%Z (tl (utf8_encode c)).
Proof.
  intros [Hc _]. unfold utf8_encode.
  destruct (Z.ltb_spec c 128); [apply Forall_nil|].
  destruct (Z.ltb_spec c 2048); [|destruct (Z.ltb_spec c 65536)]; cbn [tl];
    repeat (apply Forall_cons; [Z.div_mod_to_equations; lia|]); apply Forall_nil.
Qed.

(** [E2 82] is the start of the encoding of U+20AC cut short by [A]. *)
Lemma e2_82_subpart : invalid_subpart [226; 130]%Z [65]%Z.
Proof.
  split; [discriminate|]. split.
  { repeat (apply Forall_cons; [lia|]). apply Forall_nil. }
  split.
  { intros c Hc E. pose proof Hc as [Hr _]. unfold utf8_encode in E.
    destruct (Z.ltb_spec c 128); [discriminate E|].
    destruct (Z.ltb_spec c 2048); [|destruct (Z.ltb_spec c 65536)].
    - apply cons_inj in E as [E0 _]. Z.div_mod_to_equations. lia.
    - apply cons_inj in E as [_ E]. apply cons_inj in E as [_ E]. discriminate E.
    - apply cons_inj in E as [_ E]. apply cons_inj in E as [_ E]. discriminate E. }
  split.
  { right. exists 8364%Z, [172%Z]. split; [unfold is_scalar; lia | vm_compute; reflexivity]. }
  intros b rest' E (c & r & Hc & Henc).
  apply cons_inj in E as [<- _].
  pose proof (enc_tail_cont c Hc) as Ht. rewrite Henc in Ht. cbn [tl app] in Ht.
  inversion Ht as [|? ? _ Ht']. inversion Ht' as [|? ? H65 _]. lia.
Qed.

(** C9: once [zlib.decompress] succeeds the slot always gets its text: the
    UTF-8 decode with [errors='ignore'] cannot fail, so a slot fails only
    when decompression does.  Every well-formed character decodes to its
    code point, and every maximal ill-formed subsequence (an invalid start
    byte, or a character's encoding cut short by the next byte or by the end
    of the input, as in [E2 82 41]) is dropped, not replaced. *)
Theorem utf8_decode_total (z : list byte -> option (list byte)) :
  (forall compressed raw, z compressed = Some raw ->
     decode_payload z compressed =
     Some (firstn 200 (utf8_decode_ignore (map byte_to_Z raw)))) /\
  (forall compressed, decode_payload z compressed = None <-> z compressed = None) /\
  (forall b rest, ((128 <= b < 194) \/ 245 <= b)%Z ->
     utf8_decode_ignore (b :: rest) = utf8_decode_ignore rest) /\
  (forall c rest, is_scalar c ->
     utf8_decode_ignore (utf8_encode c ++ rest) = c :: utf8_decode_ignore rest) /\
  (forall bs rest, invalid_subpart bs rest ->
     utf8_decode_ignore (bs ++ rest) = utf8_decode_ignore rest).
Proof.
  split; [intros compressed raw H; unfold decode_payload; rewrite H; reflexivity|].
  split.
  { intros compressed. unfold decode_payload.
    destruct (z compressed); split; intros H; congruence. }
  split; [exact dec_invalid_start|].
  split; [exact utf8_encode_decode|].
  exact utf8_decode_drops_subpart.
Qed.

Lemma utf8_decode_total_witness :
  invalid_subpart [226; 130]%Z [65]%Z /\
  utf8_decode_ignore ([226; 130] ++ [65])%Z = utf8_decode_ignore [65]%Z.
Proof.
  split; [exact e2_82_subpart|].
  exact (proj2 (proj2 (proj2 (proj2 (utf8_decode_total inflate_stored))))
           _ _ e2_82_subpart).
Defined.
